(** * Secure CoAP client (src/core/coap/secure_coap_client.cpp)

    A shallow embedding of [Thread::Coap::SecureClient], the bridge between
    the CoAP client, the DTLS engine and the UDP socket, together with the
    properties its specification states about it.

    The component is single threaded.  Every member function becomes a
    function on a [World]: the member fields of the object, the message pool
    (a heap of message objects addressed by pointer), the state of each
    collaborator, and the trace of the calls the component has made on them.
    The collaborators whose code is not part of this file's source (DTLS
    engine, base CoAP client, UDP socket, message pool admission) are the
    fields of the class [Collaborators]; every theorem holds for all of them.

    The engine calls [HandleDtlsSend] and [HandleDtlsReceive] from inside its
    own entry points, and the base client calls [Send] from inside
    [Client::SendMessage]; both are modelled.  Application code (the
    connected callback, the response handlers reached through
    [ProcessReceivedMessage]) appears as an entry of the trace and is taken
    not to call back into the object before it returns.  The logging macros
    are left out. *)

From Stdlib Require Import ZArith Lia.
From Stdlib.Strings Require Import Byte.
From stdpp Require Import gmap list.

Local Open Scope Z_scope.

(** ** Data *)

(** [ThreadError]: the codes this translation unit names, and the ones an
    engine can report through it. *)
Inductive ThreadError : Type :=
| kThreadError_None
| kThreadError_Failed
| kThreadError_Drop
| kThreadError_NoBufs
| kThreadError_Busy
| kThreadError_Security
| kThreadError_InvalidState
| kThreadError_Already.

(** [error != kThreadError_None] *)
Definition isError (e : ThreadError) : bool :=
  match e with
  | kThreadError_None => false
  | _ => true
  end.

(** [Ip6::MessageInfo]: addresses are 128-bit values, ports 16-bit values. *)
Record MessageInfo : Type := mkMessageInfo {
  mSockAddr : Z;
  mPeerAddr : Z;
  mSockPort : Z;
  mPeerPort : Z;
  mInterfaceId : Z
}.

(** A message object of the pool: the bytes [GetLength()] counts, the read
    offset, and the link-security flag. *)
Record Message : Type := mkMessage {
  mPayload : list byte;
  mOffset : Z;
  mLinkSecurityEnabled : bool
}.

(** [Message *]: [None] is [NULL]. *)
Definition MsgPtr : Type := nat.

(** [ConnectedCallback] is a function pointer, [void *aContext] an address
    (0 is [NULL]). *)
Definition ConnectedCallback : Type := nat.
Definition Context : Type := Z.

(** [aMessage.GetLength()], a [uint16_t]. *)
Definition GetLength (m : Message) : Z := Z.of_nat (length (mPayload m)).

(** Conversion to [uint16_t]. *)
Definition to_uint16 (z : Z) : Z := z mod 65536.

(** ** Calls on the collaborators, as they appear in the trace *)
Inductive Event : Type :=
| EvNewMessage (r : option MsgPtr)
| EvSetLinkSecurityEnabled (p : MsgPtr) (b : bool)
| EvAppend (p : MsgPtr) (aBuf : list byte) (r : ThreadError)
| EvRead (p : MsgPtr) (aLength : Z)
| EvFree (p : MsgPtr)
| EvPost
| EvSendTo (p : MsgPtr) (m : option Message) (aMessageInfo : MessageInfo) (r : ThreadError)
| EvDtlsStart
| EvDtlsStop
| EvDtlsSend (aBuf : list byte)
| EvDtlsReceive (m : Message) (aOffset aLength : Z)
| EvConnectedCallback (cb : ConnectedCallback) (aContext : Context)
| EvClientStop
| EvClientSendMessage (p : MsgPtr) (aMessageInfo : MessageInfo) (aHandler : nat) (aContext : Context)
| EvProcessReceivedMessage (p : MsgPtr) (m : option Message) (aMessageInfo : MessageInfo).

(** ** Collaborators *)

(** What the DTLS engine does during one of its entry points: it calls the
    registered send and receive handlers synchronously, any number of times,
    sees the result of each send, and finally returns.  The tree is finite
    because every entry point returns. *)
Inductive DtlsScript (D R : Type) : Type :=
| DtlsReturn (r : R) (d : D)
| DtlsCallSend (aBuf : list byte) (k : ThreadError -> DtlsScript D R)
| DtlsCallReceive (aBuf : list byte) (k : DtlsScript D R).
Arguments DtlsReturn {D R} r d.
Arguments DtlsCallSend {D R} aBuf k.
Arguments DtlsCallReceive {D R} aBuf k.

(** What the base CoAP client does during [Client::SendMessage]: it calls the
    sender hook given to its constructor and sees the result. *)
Inductive ClientScript (B R : Type) : Type :=
| ClientReturn (r : R) (b : B)
| ClientCallSender (aMessage : MsgPtr) (aMessageInfo : MessageInfo)
    (k : ThreadError -> ClientScript B R).
Arguments ClientReturn {B R} r b.
Arguments ClientCallSender {B R} aMessage aMessageInfo k.

Class Collaborators : Type := {
  (** state of [mNetif.GetDtls()], of the [Client] base object, of [mSocket] *)
  Dtls : Type;
  Base : Type;
  Udp : Type;
  (** capacity of [mBuffer] (declared in the header) *)
  kMaxMessageLength : Z;
  (** message pool: does [New] find a buffer, what does [Append] return *)
  pool_New_ok : gmap nat Message -> bool;
  msg_Append_result : gmap nat Message -> MsgPtr -> list byte -> ThreadError;
  (** [MeshCoP::Dtls] *)
  dtls_IsStarted : Dtls -> bool;
  dtls_IsConnected : Dtls -> bool;
  dtls_Start : bool -> Dtls -> DtlsScript Dtls ThreadError;
  dtls_Stop : Dtls -> DtlsScript Dtls ThreadError;
  dtls_Send : list byte -> Dtls -> DtlsScript Dtls ThreadError;
  dtls_Receive : Message -> Z -> Z -> Dtls -> DtlsScript Dtls unit;
  (** the engine's processing on its own timer (handshake retransmission) *)
  dtls_HandleTimer : Dtls -> DtlsScript Dtls unit;
  (** [Coap::Client] *)
  client_Stop : Base -> ThreadError * Base;
  client_SendMessage :
    MsgPtr -> MessageInfo -> nat -> Context -> Base -> ClientScript Base ThreadError;
  client_ProcessReceivedMessage : option Message -> MessageInfo -> Base -> Base;
  (** [Ip6::UdpSocket::SendTo] *)
  udp_SendTo : option Message -> MessageInfo -> Udp -> ThreadError * Udp
}.

Section SecureClient.
Context {C : Collaborators}.

(** ** The world *)
Record World : Type := mkWorld {
  (* members of SecureClient *)
  mConnectedCallback : option ConnectedCallback;
  mContext : Context;
  mPeerAddress : MessageInfo;
  mTransmitMessage : option MsgPtr;
  mBuffer : list byte;
  (* mTransmitTask: posted and not yet run *)
  mTransmitTaskPosted : bool;
  (* collaborators *)
  pool : gmap nat Message;
  dtls : Dtls;
  base : Base;
  udp : Udp;
  trace : list Event
}.

Definition set_mConnectedCallback (v : option ConnectedCallback) (w : World) : World :=
  mkWorld v (mContext w) (mPeerAddress w) (mTransmitMessage w) (mBuffer w)
    (mTransmitTaskPosted w) (pool w) (dtls w) (base w) (udp w) (trace w).
Definition set_mContext (v : Context) (w : World) : World :=
  mkWorld (mConnectedCallback w) v (mPeerAddress w) (mTransmitMessage w) (mBuffer w)
    (mTransmitTaskPosted w) (pool w) (dtls w) (base w) (udp w) (trace w).
Definition set_mPeerAddress (v : MessageInfo) (w : World) : World :=
  mkWorld (mConnectedCallback w) (mContext w) v (mTransmitMessage w) (mBuffer w)
    (mTransmitTaskPosted w) (pool w) (dtls w) (base w) (udp w) (trace w).
Definition set_mTransmitMessage (v : option MsgPtr) (w : World) : World :=
  mkWorld (mConnectedCallback w) (mContext w) (mPeerAddress w) v (mBuffer w)
    (mTransmitTaskPosted w) (pool w) (dtls w) (base w) (udp w) (trace w).
Definition set_mBuffer (v : list byte) (w : World) : World :=
  mkWorld (mConnectedCallback w) (mContext w) (mPeerAddress w) (mTransmitMessage w) v
    (mTransmitTaskPosted w) (pool w) (dtls w) (base w) (udp w) (trace w).
Definition set_mTransmitTaskPosted (v : bool) (w : World) : World :=
  mkWorld (mConnectedCallback w) (mContext w) (mPeerAddress w) (mTransmitMessage w)
    (mBuffer w) v (pool w) (dtls w) (base w) (udp w) (trace w).
Definition set_pool (v : gmap nat Message) (w : World) : World :=
  mkWorld (mConnectedCallback w) (mContext w) (mPeerAddress w) (mTransmitMessage w)
    (mBuffer w) (mTransmitTaskPosted w) v (dtls w) (base w) (udp w) (trace w).
Definition set_dtls (v : Dtls) (w : World) : World :=
  mkWorld (mConnectedCallback w) (mContext w) (mPeerAddress w) (mTransmitMessage w)
    (mBuffer w) (mTransmitTaskPosted w) (pool w) v (base w) (udp w) (trace w).
Definition set_base (v : Base) (w : World) : World :=
  mkWorld (mConnectedCallback w) (mContext w) (mPeerAddress w) (mTransmitMessage w)
    (mBuffer w) (mTransmitTaskPosted w) (pool w) (dtls w) v (udp w) (trace w).
Definition set_udp (v : Udp) (w : World) : World :=
  mkWorld (mConnectedCallback w) (mContext w) (mPeerAddress w) (mTransmitMessage w)
    (mBuffer w) (mTransmitTaskPosted w) (pool w) (dtls w) (base w) v (trace w).

(** Record a call on a collaborator. *)
Definition emit (e : Event) (w : World) : World :=
  mkWorld (mConnectedCallback w) (mContext w) (mPeerAddress w) (mTransmitMessage w)
    (mBuffer w) (mTransmitTaskPosted w) (pool w) (dtls w) (base w) (udp w)
    (trace w ++ [e]).

(** ** Message pool and message objects

    A call on a message that has been freed is undefined in C++.  The model
    records such a call in the trace like any other and leaves the pool as it
    is, so that the misuse stays visible. *)

(** [mSocket.NewMessage(0)] and [mMessagePool.New(Message::kTypeIp6, 0)]: a
    fresh, empty message, or [NULL]. *)
Definition newMessage : Message := mkMessage [] 0 true.

Definition pool_New (w : World) : option MsgPtr * World :=
  if pool_New_ok (pool w) then
    let p := fresh (dom (pool w)) in
    (Some p, emit (EvNewMessage (Some p)) (set_pool (<[p := newMessage]> (pool w)) w))
  else (None, emit (EvNewMessage None) w).

(** [p->SetLinkSecurityEnabled(b)] *)
Definition msg_SetLinkSecurityEnabled (p : MsgPtr) (b : bool) (w : World) : World :=
  emit (EvSetLinkSecurityEnabled p b)
    (set_pool (alter (fun m => mkMessage (mPayload m) (mOffset m) b) p (pool w)) w).

(** [p->Append(aBuf, aLength)]: the bytes go to the end of the message. *)
Definition msg_Append (p : MsgPtr) (aBuf : list byte) (w : World) : ThreadError * World :=
  let r := msg_Append_result (pool w) p aBuf in
  (r, emit (EvAppend p aBuf r)
        (if isError r then w
         else set_pool
                (alter (fun m => mkMessage (mPayload m ++ aBuf) (mOffset m)
                                   (mLinkSecurityEnabled m)) p (pool w)) w)).

(** [p->Free()] *)
Definition msg_Free (p : MsgPtr) (w : World) : World :=
  emit (EvFree p) (set_pool (delete p (pool w)) w).

(** [mTransmitTask.Post()] *)
Definition task_Post (w : World) : World :=
  emit EvPost (set_mTransmitTaskPosted true w).

(** [mSocket.SendTo] on the message [p] points to: the socket keeps a
    reference to the message; the trace records the message as it is at the
    time of the call. *)
Definition socket_SendTo (p : MsgPtr) (aMessageInfo : MessageInfo) (w : World)
  : ThreadError * World :=
  let '(r, u) := udp_SendTo (pool w !! p) aMessageInfo (udp w) in
  (r, emit (EvSendTo p (pool w !! p) aMessageInfo r) (set_udp u w)).

(** ** Outbound buffer: [HandleDtlsSend] and [HandleUdpTransmit] *)

(** The [exit:] block of [HandleDtlsSend]. *)
Definition HandleDtlsSend_exit (error : ThreadError) (w : World) : ThreadError * World :=
  (error,
   if isError error then
     match mTransmitMessage w with
     | Some p => msg_Free p w
     | None => w
     end
   else w).

(** From the [Append] on, with [p] the value of [mTransmitMessage]. *)
Definition HandleDtlsSend_append (p : MsgPtr) (aBuf : list byte) (w : World)
  : ThreadError * World :=
  let '(r, w1) := msg_Append p aBuf w in
  match r with
  | kThreadError_None => HandleDtlsSend_exit kThreadError_None (task_Post w1)
  | _ => HandleDtlsSend_exit kThreadError_NoBufs w1
  end.

Definition HandleDtlsSend (aBuf : list byte) (w : World) : ThreadError * World :=
  match mTransmitMessage w with
  | None =>
      let '(r, w1) := pool_New w in
      let w2 := set_mTransmitMessage r w1 in
      match r with
      | None => HandleDtlsSend_exit kThreadError_NoBufs w2
      | Some p =>
          HandleDtlsSend_append p aBuf (msg_SetLinkSecurityEnabled p false w2)
      end
  | Some p => HandleDtlsSend_append p aBuf w
  end.

Definition HandleUdpTransmit (w : World) : World :=
  let '(error, w1) :=
    match mTransmitMessage w with
    | None => (kThreadError_NoBufs, w)
    | Some p => (kThreadError_None, snd (socket_SendTo p (mPeerAddress w) w))
    end in
  let w2 :=
    if isError error then
      match mTransmitMessage w1 with
      | Some p => msg_Free p w1
      | None => w1
      end
    else w1 in
  set_mTransmitMessage None w2.

(** ** Inbound path: [HandleDtlsReceive] *)

(** [ProcessReceivedMessage] of the base client, on the message [p] points to. *)
Definition ProcessReceivedMessage (p : MsgPtr) (aMessageInfo : MessageInfo) (w : World)
  : World :=
  emit (EvProcessReceivedMessage p (pool w !! p) aMessageInfo)
    (set_base (client_ProcessReceivedMessage (pool w !! p) aMessageInfo (base w)) w).

Definition HandleDtlsReceive (aBuf : list byte) (w : World) : World :=
  let '(message, w1) := pool_New w in
  match message with
  | None => w1
  | Some p =>
      let '(r, w2) := msg_Append p aBuf w1 in
      let w3 := if isError r then w2 else ProcessReceivedMessage p (mPeerAddress w2) w2 in
      msg_Free p w3
  end.

(** ** Calls into the DTLS engine

    The engine runs its script; each handler call in it is a call of the
    member function above on the current world. *)
Fixpoint runDtls {R : Type} (s : DtlsScript Dtls R) (w : World) : R * World :=
  match s with
  | DtlsReturn r d => (r, set_dtls d w)
  | DtlsCallSend aBuf k =>
      let '(e, w1) := HandleDtlsSend aBuf w in runDtls (k e) w1
  | DtlsCallReceive aBuf k => runDtls k (HandleDtlsReceive aBuf w)
  end.

(** ** Connection lifecycle *)

Definition IsConnectionStarted (w : World) : bool := dtls_IsStarted (dtls w).

Definition IsConnected (w : World) : bool := dtls_IsConnected (dtls w).

Definition Connect (aMessageInfo : MessageInfo) (aCallback : option ConnectedCallback)
    (aContext : Context) (w : World) : ThreadError * World :=
  let w1 := set_mPeerAddress aMessageInfo w in
  let w2 := set_mConnectedCallback aCallback w1 in
  let w3 := set_mContext aContext w2 in
  runDtls (dtls_Start true (dtls w3)) (emit EvDtlsStart w3).

Definition Disconnect (w : World) : ThreadError * World :=
  runDtls (dtls_Stop (dtls w)) (emit EvDtlsStop w).

(** [Client::Stop()] of the base class. *)
Definition base_Stop (w : World) : ThreadError * World :=
  let '(r, b) := client_Stop (base w) in
  (r, emit EvClientStop (set_base b w)).

Definition Stop (w : World) : ThreadError * World :=
  let w1 := if IsConnectionStarted w then snd (Disconnect w) else w in
  let w2 :=
    match mTransmitMessage w1 with
    | Some p => set_mTransmitMessage None (msg_Free p w1)
    | None => w1
    end in
  base_Stop w2.

(** ** Outbound message adapter: [Send] and [SendMessage] *)

(** [aMessage.GetLength()] through a pointer. *)
Definition msg_GetLength (p : MsgPtr) (w : World) : Z :=
  match pool w !! p with
  | Some m => GetLength m
  | None => 0
  end.

(** [aMessage.Read(0, aLength, mBuffer)]: the bytes read overwrite the front
    of [mBuffer]. *)
Definition msg_Read_into_mBuffer (p : MsgPtr) (aLength : Z) (w : World) : World :=
  let bytes :=
    match pool w !! p with
    | Some m => take (Z.to_nat aLength) (mPayload m)
    | None => []
    end in
  emit (EvRead p aLength) (set_mBuffer (bytes ++ drop (length bytes) (mBuffer w)) w).

Definition Send (aMessage : MsgPtr) (aMessageInfo : MessageInfo) (w : World)
  : ThreadError * World :=
  let length := msg_GetLength aMessage w in
  if length <=? kMaxMessageLength then
    let w1 := msg_Read_into_mBuffer aMessage length w in
    let aBuf := take (Z.to_nat length) (mBuffer w1) in
    let '(error, w2) := runDtls (dtls_Send aBuf (dtls w1)) (emit (EvDtlsSend aBuf) w1) in
    if isError error then (error, w2)
    else (error, msg_Free aMessage w2)
  else (kThreadError_NoBufs, w).

(** The base client runs [Client::SendMessage]; its sender hook is [Send]. *)
Fixpoint runClient {R : Type} (s : ClientScript Base R) (w : World) : R * World :=
  match s with
  | ClientReturn r b => (r, set_base b w)
  | ClientCallSender aMessage aMessageInfo k =>
      let '(e, w1) := Send aMessage aMessageInfo w in runClient (k e) w1
  end.

Definition SendMessage (aMessage : MsgPtr) (aHandler : nat) (aContext : Context)
    (w : World) : ThreadError * World :=
  if IsConnected w then
    runClient (client_SendMessage aMessage (mPeerAddress w) aHandler aContext (base w))
      (emit (EvClientSendMessage aMessage (mPeerAddress w) aHandler aContext) w)
  else (kThreadError_InvalidState, w).

(** ** Inbound dispatch: [Receive] *)

Definition Receive (aMessage : Message) (aMessageInfo : MessageInfo) (w : World) : World :=
  if (mPeerAddr (mPeerAddress w) =? mPeerAddr aMessageInfo) &&
     (mPeerPort (mPeerAddress w) =? mPeerPort aMessageInfo)
  then
    let aOffset := mOffset aMessage in
    let aLength := to_uint16 (GetLength aMessage - mOffset aMessage) in
    let w1 := snd (runDtls (dtls_Receive aMessage aOffset aLength (dtls w))
                     (emit (EvDtlsReceive aMessage aOffset aLength) w)) in
    if IsConnected w1 then
      match mConnectedCallback w1 with
      | Some cb =>
          set_mContext 0
            (set_mConnectedCallback None
               (emit (EvConnectedCallback cb (mContext w1)) w1))
      | None => w1
      end
    else w1
  else w.

(** ** The component driven from outside *)

(** The tasklet scheduler takes a posted [mTransmitTask] off its queue and
    runs its handler. *)
Definition RunTransmitTask (w : World) : World :=
  if mTransmitTaskPosted w then HandleUdpTransmit (set_mTransmitTaskPosted false w)
  else w.

(** The engine's timer fires: the engine runs on its own and may call the
    handlers. *)
Definition DtlsTimerFired (w : World) : World :=
  snd (runDtls (dtls_HandleTimer (dtls w)) w).

(** Everything that can happen to the component after a [Connect], short of
    another [Connect]: a datagram arrives, the application sends or tears
    down, the base client retransmits through its sender hook, the scheduler
    runs the flush, the engine's timer fires, the other users of the message
    pool allocate and free. *)
Inductive Op : Type :=
| OpReceive (aMessage : Message) (aMessageInfo : MessageInfo)
| OpSendMessage (aMessage : MsgPtr) (aHandler : nat) (aContext : Context)
| OpSend (aMessage : MsgPtr) (aMessageInfo : MessageInfo)
| OpDisconnect
| OpStop
| OpRunTransmitTask
| OpDtlsTimer
| OpPoolChanged (pl : gmap nat Message).

Definition step (o : Op) (w : World) : World :=
  match o with
  | OpReceive aMessage aMessageInfo => Receive aMessage aMessageInfo w
  | OpSendMessage aMessage aHandler aContext => snd (SendMessage aMessage aHandler aContext w)
  | OpSend aMessage aMessageInfo => snd (Send aMessage aMessageInfo w)
  | OpDisconnect => snd (Disconnect w)
  | OpStop => snd (Stop w)
  | OpRunTransmitTask => RunTransmitTask w
  | OpDtlsTimer => DtlsTimerFired w
  | OpPoolChanged pl => set_pool pl w
  end.

Definition run (ops : list Op) (w : World) : World := foldl (fun w o => step o w) w ops.

(** ** Reading the trace *)

(** The datagrams handed to [mSocket.SendTo], oldest first. *)
Definition sendTo_of (e : Event) : option (option (list byte) * MessageInfo) :=
  match e with
  | EvSendTo _ m aMessageInfo _ => Some (mPayload <$> m, aMessageInfo)
  | _ => None
  end.

Definition sendTos (t : list Event) : list (option (list byte) * MessageInfo) :=
  omap sendTo_of t.

(** The messages freed, oldest first. *)
Definition free_of (e : Event) : option MsgPtr :=
  match e with
  | EvFree p => Some p
  | _ => None
  end.

Definition frees (t : list Event) : list MsgPtr := omap free_of t.

(** The invocations of the connected callback, oldest first. *)
Definition connected_of (e : Event) : option (ConnectedCallback * Context) :=
  match e with
  | EvConnectedCallback cb c => Some (cb, c)
  | _ => None
  end.

Definition connecteds (t : list Event) : list (ConnectedCallback * Context) :=
  omap connected_of t.

(** The calls of the engine's receive operation. *)
Definition dtlsReceive_of (e : Event) : option Message :=
  match e with
  | EvDtlsReceive m _ _ => Some m
  | _ => None
  end.

Definition dtlsReceives (t : list Event) : list Message := omap dtlsReceive_of t.

(** [HandleDtlsSend] called on each chunk in turn. *)
Fixpoint HandleDtlsSend_all (chunks : list (list byte)) (w : World)
  : list ThreadError * World :=
  match chunks with
  | [] => ([], w)
  | aBuf :: rest =>
      let '(e, w1) := HandleDtlsSend aBuf w in
      let '(es, w2) := HandleDtlsSend_all rest w1 in
      (e :: es, w2)
  end.

(** ** What the callbacks leave alone *)

(** [frame w w']: from [w] to [w'] the bound peer, the connected callback and
    its context are the same, and the trace has grown by calls none of which
    is an invocation of the connected callback. *)
Definition frame (w w' : World) : Prop :=
  mConnectedCallback w' = mConnectedCallback w /\
  mContext w' = mContext w /\
  mPeerAddress w' = mPeerAddress w /\
  exists l, trace w' = trace w ++ l /\ connecteds l = [].

(** [untouched a w w']: from [w] to [w'] the message [a] points to is the
    same, [a] is not the pending message at the end, and the trace has grown
    by calls none of which frees [a]. *)
Definition untouched (a : MsgPtr) (w w' : World) : Prop :=
  pool w' !! a = pool w !! a /\
  mTransmitMessage w' <> Some a /\
  exists l, trace w' = trace w ++ l /\ a ∉ frees l.

(** A property of every state and result the engine can return with. *)
Fixpoint DtlsEnds {R : Type} (P : R -> Dtls -> Prop) (s : DtlsScript Dtls R) : Prop :=
  match s with
  | DtlsReturn r d => P r d
  | DtlsCallSend _ k => forall e, DtlsEnds P (k e)
  | DtlsCallReceive _ k => DtlsEnds P k
  end.

(** The engine keeps to the session lifecycle: [Stop] ends the session, a
    session that is not started is not connected, and nothing but [Start]
    starts one. *)
Definition DtlsLifecycle : Prop :=
  (forall d, DtlsEnds (fun _ d' => dtls_IsStarted d' = false) (dtls_Stop d)) /\
  (forall d, dtls_IsStarted d = false -> dtls_IsConnected d = false) /\
  (forall m o l d, dtls_IsStarted d = false ->
     DtlsEnds (fun _ d' => dtls_IsStarted d' = false) (dtls_Receive m o l d)) /\
  (forall b d, dtls_IsStarted d = false ->
     DtlsEnds (fun _ d' => dtls_IsStarted d' = false) (dtls_Send b d)) /\
  (forall d, dtls_IsStarted d = false ->
     DtlsEnds (fun _ d' => dtls_IsStarted d' = false) (dtls_HandleTimer d)).

(** ** Construction and the whole life of the object *)

(** The constructor: no callback, no context, no pending message, a zeroed
    [mBuffer], a transmit task that is not posted.  [aPeer] is what the
    default construction of [mPeerAddress] gives; the pool and the
    collaborators are those of the network interface. *)
Definition SecureClient_new (aPeer : MessageInfo) (pl : gmap nat Message)
    (d : Dtls) (b : Base) (u : Udp) : World :=
  mkWorld None 0 aPeer None (replicate (Z.to_nat kMaxMessageLength) x00) false
    pl d b u [].

(** A call on the object: [Connect], or one of the steps above. *)
Inductive Call : Type :=
| CallConnect (aMessageInfo : MessageInfo) (aCallback : option ConnectedCallback)
    (aContext : Context)
| CallStep (o : Op).

Definition call (c : Call) (w : World) : World :=
  match c with
  | CallConnect aMessageInfo aCallback aContext =>
      snd (Connect aMessageInfo aCallback aContext w)
  | CallStep o => step o w
  end.

Definition lifetime (calls : list Call) (w : World) : World :=
  foldl (fun w c => call c w) w calls.

(** The calls in which the object handles only messages of its own: all but
    the sends of a caller's message and the changes other users make to the
    pool. *)
Definition own_messages_only (c : Call) : bool :=
  match c with
  | CallStep (OpSend _ _) => false
  | CallStep (OpSendMessage _ _ _) => false
  | CallStep (OpPoolChanged _) => false
  | _ => true
  end.

(** ** More readings of the trace *)

(** The messages handed to [mSocket.SendTo], as they were at the call, with
    their destination. *)
Definition sentMessage_of (e : Event) : option (option Message * MessageInfo) :=
  match e with
  | EvSendTo _ m aMessageInfo _ => Some (m, aMessageInfo)
  | _ => None
  end.

Definition sentMessages (t : list Event) : list (option Message * MessageInfo) :=
  omap sentMessage_of t.

(** The messages handed to [ProcessReceivedMessage], with their source. *)
Definition processed_of (e : Event) : option (option Message * MessageInfo) :=
  match e with
  | EvProcessReceivedMessage _ m aMessageInfo => Some (m, aMessageInfo)
  | _ => None
  end.

Definition processeds (t : list Event) : list (option Message * MessageInfo) :=
  omap processed_of t.

(** The calls of the engine's receive operation with their arguments. *)
Definition dtlsReceiveCall_of (e : Event) : option (Message * Z * Z) :=
  match e with
  | EvDtlsReceive m aOffset aLength => Some (m, aOffset, aLength)
  | _ => None
  end.

Definition dtlsReceiveCalls (t : list Event) : list (Message * Z * Z) :=
  omap dtlsReceiveCall_of t.

(** [bound i e]: if the call [e] names a remote endpoint, it names [i]. *)
Definition bound (i : MessageInfo) (e : Event) : Prop :=
  match e with
  | EvSendTo _ _ i' _ => i' = i
  | EvClientSendMessage _ i' _ _ => i' = i
  | EvProcessReceivedMessage _ _ i' => i' = i
  | _ => True
  end.

(** [silent i e]: moreover [e] is not a [SendTo]. *)
Definition silent (i : MessageInfo) (e : Event) : Prop :=
  bound i e /\ sendTo_of e = None.

(** The calls into the engine. *)
Definition engineCall_of (e : Event) : option Event :=
  match e with
  | EvDtlsStart | EvDtlsStop | EvDtlsSend _ | EvDtlsReceive _ _ _ => Some e
  | _ => None
  end.

Definition engineCalls (t : list Event) : list Event := omap engineCall_of t.

(** [quiet i e]: moreover [e] is neither a call into the engine nor an
    invocation of the connected callback. *)
Definition quiet (i : MessageInfo) (e : Event) : Prop :=
  silent i e /\ engineCall_of e = None /\ connected_of e = None.

(** [evolves P w w']: the bound peer is the same in [w'] as in [w], and the
    trace has grown by calls that all satisfy [P] for that peer. *)
Definition evolves (P : MessageInfo -> Event -> Prop) (w w' : World) : Prop :=
  mPeerAddress w' = mPeerAddress w /\
  exists l, trace w' = trace w ++ l /\ Forall (P (mPeerAddress w)) l.

(** [mBuffer] has its declared size. *)
Definition mBuffer_sized (w : World) : Prop :=
  Z.of_nat (length (mBuffer w)) = kMaxMessageLength.

(** The source of a datagram is the bound peer: [Receive]'s test. *)
Definition from_bound_peer (aMessageInfo : MessageInfo) (w : World) : bool :=
  (mPeerAddr (mPeerAddress w) =? mPeerAddr aMessageInfo) &&
  (mPeerPort (mPeerAddress w) =? mPeerPort aMessageInfo).

End SecureClient.

(** * A concrete configuration

    A small instance of the collaborators, on which the definitions above
    are evaluated. *)
Module Scenario.

(** Modelled from the spec: the secure-channel engine (meshcop/dtls.cpp is
    not among the sources here), as the session state machine
    [Idle -> Connecting -> Connected -> Idle] of the connection lifecycle.
    [Start] sends a first flight through the send handler; the first datagram
    received while connecting completes the handshake; once connected, a
    received datagram is handed up through the receive handler and [Send]
    emits one record through the send handler; [Stop] sends a closing alert
    when a session is active; the timer repeats the first flight while
    connecting. *)
Inductive Session : Type := Idle | Connecting | Connected.

Definition started (d : Session) : bool :=
  match d with Idle => false | _ => true end.

Definition connected (d : Session) : bool :=
  match d with Connected => true | _ => false end.

Definition start (isClient : bool) (d : Session) : DtlsScript Session ThreadError :=
  match d with
  | Idle =>
      DtlsCallSend [x16]
        (fun e => if isError e then DtlsReturn e Idle
                  else DtlsReturn kThreadError_None Connecting)
  | _ => DtlsReturn kThreadError_Already d
  end.

Definition stop (d : Session) : DtlsScript Session ThreadError :=
  match d with
  | Idle => DtlsReturn kThreadError_None Idle
  | _ => DtlsCallSend [x15] (fun _ => DtlsReturn kThreadError_None Idle)
  end.

Definition send (aBuf : list byte) (d : Session) : DtlsScript Session ThreadError :=
  match d with
  | Connected => DtlsCallSend (x17 :: aBuf) (fun e => DtlsReturn e d)
  | _ => DtlsReturn kThreadError_InvalidState d
  end.

Definition receive (m : Message) (aOffset aLength : Z) (d : Session)
  : DtlsScript Session unit :=
  match d with
  | Idle => DtlsReturn tt Idle
  | Connecting => DtlsReturn tt Connected
  | Connected =>
      DtlsCallReceive (take (Z.to_nat aLength) (drop (Z.to_nat aOffset) (mPayload m)))
        (DtlsReturn tt Connected)
  end.

Definition timer (d : Session) : DtlsScript Session unit :=
  match d with
  | Connecting => DtlsCallSend [x16] (fun _ => DtlsReturn tt Connecting)
  | _ => DtlsReturn tt d
  end.

(** A pool of two buffers of four bytes each. *)
Definition new_ok (pl : gmap nat Message) : bool := (size pl <? 2)%nat.

Definition append_result (pl : gmap nat Message) (p : MsgPtr) (aBuf : list byte)
  : ThreadError :=
  let used := match pl !! p with Some m => length (mPayload m) | None => 0%nat end in
  if (used + length aBuf <=? 4)%nat then kThreadError_None else kThreadError_NoBufs.

Definition collaborators : Collaborators := {|
  Dtls := Session;
  Base := unit;
  Udp := unit;
  kMaxMessageLength := 3;
  pool_New_ok := new_ok;
  msg_Append_result := append_result;
  dtls_IsStarted := started;
  dtls_IsConnected := connected;
  dtls_Start := start;
  dtls_Stop := stop;
  dtls_Send := send;
  dtls_Receive := receive;
  dtls_HandleTimer := timer;
  client_Stop := fun b => (kThreadError_None, b);
  client_SendMessage := fun p i _ _ b => ClientCallSender p i (fun e => ClientReturn e b);
  client_ProcessReceivedMessage := fun _ _ b => b;
  udp_SendTo := fun _ _ u => (kThreadError_None, u)
|}.

Definition peerA : MessageInfo := mkMessageInfo 0 10 0 5684 0.
Definition peerB : MessageInfo := mkMessageInfo 0 11 0 5684 0.
Definition peerA' : MessageInfo := mkMessageInfo 0 10 0 5685 0.

(** The object as its constructor leaves it, in an empty pool. *)
Definition w0 : World (C := collaborators) :=
  mkWorld (C := collaborators) None 0 (mkMessageInfo 0 0 0 0 0) None
    (replicate 3 x00) false ∅ Idle tt tt [].

(** The same with a session to [peerA] being set up, and once it is up. *)
Definition w_connecting : World (C := collaborators) :=
  mkWorld (C := collaborators) (Some 7%nat) 42 peerA None
    (replicate 3 x00) false ∅ Connecting tt tt [].

Definition w_connected : World (C := collaborators) :=
  mkWorld (C := collaborators) None 0 peerA None
    (replicate 3 x00) false ∅ Connected tt tt [].

Definition chunk1 : list byte := [x01; x02].
Definition chunk2 : list byte := [x03].
Definition chunk3 : list byte := [x04].
Definition chunk_big : list byte := [x05; x06; x07].

Definition datagram (bytes : list byte) : Message := mkMessage bytes 0 true.

(** A connected session with one application message, at address 0, waiting
    to be sent. *)
Definition w_outgoing : World (C := collaborators) :=
  mkWorld (C := collaborators) None 0 peerA None
    (replicate 3 x00) false {[ 0%nat := datagram chunk1 ]} Connected tt tt [].

(** The first flight is flushed and repeated; the handshake datagram and an
    application datagram arrive; the session is torn down; a late datagram
    arrives. *)
Definition session : list Op :=
  [ OpRunTransmitTask;
    OpDtlsTimer;
    OpReceive (datagram [x16]) peerA;
    OpReceive (datagram [x17]) peerA;
    OpDisconnect;
    OpReceive (datagram [x17]) peerA ].

(** The object with nothing pending while other users hold both buffers of
    the pool. *)
Definition w_exhausted : World (C := collaborators) :=
  mkWorld (C := collaborators) None 0 peerA None
    (replicate 3 x00) false
    {[ 0%nat := datagram chunk1; 1%nat := datagram chunk2 ]} Connected tt tt [].

(** A life of the object: construction is followed by these calls. *)
Definition life : list Call :=
  [ CallConnect peerA (Some 7%nat) 42;
    CallStep (OpReceive (datagram [x16]) peerA);
    CallStep (OpSend 0%nat peerB);
    CallStep OpRunTransmitTask;
    CallStep OpStop ].

(** A life of the object that ends with a caller's message at the address
    [mTransmitMessage] still holds: the first flight is buffered and
    repeated until an append no longer fits, which frees the pending message
    and keeps its address; the handshake completes; the pool then hands the
    freed address out again, for a message an application is about to send. *)
Definition stale_life : list Call :=
  [ CallConnect peerA (Some 7%nat) 42;
    CallStep OpDtlsTimer;
    CallStep OpDtlsTimer;
    CallStep OpDtlsTimer;
    CallStep OpDtlsTimer;
    CallStep (OpReceive (datagram [x16]) peerA);
    CallStep (OpPoolChanged {[ 0%nat := datagram chunk1 ]}) ].

Definition w_stale : World (C := collaborators) :=
  lifetime stale_life
    (SecureClient_new (C := collaborators) (mkMessageInfo 0 0 0 0 0) ∅ Idle tt tt).

End Scenario.

(** * Properties *)

Section Properties.
Context {C : Collaborators}.

Implicit Types (w : World) (p : MsgPtr) (aBuf : list byte).

(** ** Reading the trace after a call *)

Lemma sendTos_app (t1 t2 : list Event) : sendTos (t1 ++ t2) = sendTos t1 ++ sendTos t2.
Proof. apply omap_app. Qed.

Lemma frees_app (t1 t2 : list Event) : frees (t1 ++ t2) = frees t1 ++ frees t2.
Proof. apply omap_app. Qed.

Lemma connecteds_app (t1 t2 : list Event) :
  connecteds (t1 ++ t2) = connecteds t1 ++ connecteds t2.
Proof. apply omap_app. Qed.

(** ** One successful [HandleDtlsSend] *)

(** What a call of [HandleDtlsSend] that reports success has done when there
    was no pending message: the pending message is a live message holding
    exactly the chunk. *)
Lemma HandleDtlsSend_ok_first aBuf w w' :
  mTransmitMessage w = None ->
  HandleDtlsSend aBuf w = (kThreadError_None, w') ->
  exists p m,
    mTransmitMessage w' = Some p /\ pool w' !! p = Some m /\ mPayload m = aBuf /\
    sendTos (trace w') = sendTos (trace w) /\ mPeerAddress w' = mPeerAddress w.
Proof.
  intros Hnull. unfold HandleDtlsSend, pool_New. rewrite Hnull.
  destruct (pool_New_ok (pool w)); simpl; [|discriminate].
  unfold HandleDtlsSend_append, msg_Append; simpl.
  set (p := fresh (dom (pool w))).
  set (r := msg_Append_result _ p aBuf).
  destruct r eqn:Hr; simpl; try discriminate.
  intros [= <-]; simpl.
  exists p. eexists. split; [reflexivity|]. split.
  - rewrite lookup_alter_eq, lookup_alter_eq, lookup_insert_eq. reflexivity.
  - simpl. split; [reflexivity|]. split; [|reflexivity].
    rewrite !sendTos_app. simpl. rewrite !app_nil_r. reflexivity.
Qed.

(** The same when a live message was pending: the chunk went to its end. *)
Lemma HandleDtlsSend_ok_next aBuf w w' p m :
  mTransmitMessage w = Some p ->
  pool w !! p = Some m ->
  HandleDtlsSend aBuf w = (kThreadError_None, w') ->
  exists m',
    mTransmitMessage w' = Some p /\ pool w' !! p = Some m' /\
    mPayload m' = mPayload m ++ aBuf /\
    sendTos (trace w') = sendTos (trace w) /\ mPeerAddress w' = mPeerAddress w.
Proof.
  intros Hp Hm. unfold HandleDtlsSend. rewrite Hp.
  unfold HandleDtlsSend_append, msg_Append; simpl.
  destruct (msg_Append_result (pool w) p aBuf) eqn:Hr; simpl; try discriminate.
  intros [= <-]; simpl.
  eexists. split; [assumption|]. split.
  - rewrite lookup_alter_eq, Hm. reflexivity.
  - simpl. split; [reflexivity|]. split; [|reflexivity].
    rewrite !sendTos_app. simpl. rewrite !app_nil_r. reflexivity.
Qed.

(** Any number of successful calls on a live pending message append their
    chunks in call order, and none of them sends. *)
Lemma HandleDtlsSend_all_ok_next (chunks : list (list byte)) :
  forall w w' es p m,
    mTransmitMessage w = Some p ->
    pool w !! p = Some m ->
    HandleDtlsSend_all chunks w = (es, w') ->
    Forall (fun e => e = kThreadError_None) es ->
    exists m',
      mTransmitMessage w' = Some p /\ pool w' !! p = Some m' /\
      mPayload m' = mPayload m ++ concat chunks /\
      sendTos (trace w') = sendTos (trace w) /\ mPeerAddress w' = mPeerAddress w.
Proof.
  induction chunks as [|aBuf rest IH]; intros w w' es p m Hp Hm; simpl.
  - intros [= <- <-] _. exists m. rewrite app_nil_r. auto.
  - destruct (HandleDtlsSend aBuf w) as [e w1] eqn:H1.
    destruct (HandleDtlsSend_all rest w1) as [es1 w2] eqn:H2.
    intros [= <- <-] Hall. inversion Hall as [|? ? He Hes]; subst.
    destruct (HandleDtlsSend_ok_next _ _ _ _ _ Hp Hm H1)
      as (m1 & Hp1 & Hm1 & Hpay1 & Hs1 & Ha1).
    destruct (IH _ _ _ _ _ Hp1 Hm1 H2 Hes) as (m2 & Hp2 & Hm2 & Hpay2 & Hs2 & Ha2).
    exists m2. rewrite Hpay2, Hpay1, Hs2, Hs1, Ha2, Ha1, <- app_assoc. auto.
Qed.

(** ** [HandleUdpTransmit] *)

(** With a message pending, the flush is one [SendTo] and the clearing of the
    reference; the [exit:] block frees nothing. *)
Lemma HandleUdpTransmit_pending w p :
  mTransmitMessage w = Some p ->
  HandleUdpTransmit w =
    set_mTransmitMessage None (snd (socket_SendTo p (mPeerAddress w) w)).
Proof. intros Hp. unfold HandleUdpTransmit. rewrite Hp. reflexivity. Qed.

Lemma set_mTransmitMessage_same w :
  set_mTransmitMessage (mTransmitMessage w) w = w.
Proof. destruct w; reflexivity. Qed.

Lemma HandleUdpTransmit_idle w :
  mTransmitMessage w = None -> HandleUdpTransmit w = w.
Proof.
  intros Hp. unfold HandleUdpTransmit. rewrite Hp. simpl. rewrite Hp.
  rewrite <- Hp at 1. apply set_mTransmitMessage_same.
Qed.

Lemma trace_socket_SendTo p i w :
  trace (snd (socket_SendTo p i w)) =
    trace w ++ [EvSendTo p (pool w !! p) i (fst (udp_SendTo (pool w !! p) i (udp w)))].
Proof. unfold socket_SendTo. destruct (udp_SendTo _ _ _); reflexivity. Qed.

(** C1: starting with no pending message, a non-empty sequence of
    [HandleDtlsSend] calls that all succeed followed by one
    [HandleUdpTransmit] makes exactly one [SendTo] call, to the bound peer,
    and its payload is the concatenation of the chunks in call order. *)
Theorem flush_sends_concatenation (chunks : list (list byte)) w es w' :
  mTransmitMessage w = None ->
  chunks <> [] ->
  HandleDtlsSend_all chunks w = (es, w') ->
  Forall (fun e => e = kThreadError_None) es ->
  sendTos (trace (HandleUdpTransmit w')) =
    sendTos (trace w) ++ [(Some (concat chunks), mPeerAddress w)].
Proof.
  intros Hnull Hne Hrun Hall.
  destruct chunks as [|aBuf rest]; [congruence|]. simpl in Hrun.
  destruct (HandleDtlsSend aBuf w) as [e w1] eqn:H1.
  destruct (HandleDtlsSend_all rest w1) as [es1 w2] eqn:H2.
  injection Hrun as <- <-. inversion Hall as [|? ? He Hes]; subst.
  destruct (HandleDtlsSend_ok_first _ _ _ Hnull H1) as (p & m & Hp & Hm & Hpay & Hs & Ha).
  destruct (HandleDtlsSend_all_ok_next _ _ _ _ _ _ Hp Hm H2 Hes)
    as (m' & Hp' & Hm' & Hpay' & Hs' & Ha').
  rewrite (HandleUdpTransmit_pending _ _ Hp'). simpl.
  rewrite trace_socket_SendTo, sendTos_app, Hs', Hs, Hm', Ha', Ha. simpl.
  rewrite Hpay', Hpay. reflexivity.
Qed.

(** Without any chunk there is no pending message and the flush sends
    nothing. *)
Lemma flush_without_chunks w :
  mTransmitMessage w = None ->
  sendTos (trace (HandleUdpTransmit (snd (HandleDtlsSend_all [] w)))) = sendTos (trace w).
Proof. intros Hnull. simpl. rewrite HandleUdpTransmit_idle; auto. Qed.

(** C7: after [HandleUdpTransmit] the pending-message reference is null,
    whatever the state before and whatever [SendTo] returned; with no
    pending message the call changes nothing. *)
Theorem flush_clears_reference w :
  mTransmitMessage (HandleUdpTransmit w) = None /\
  (mTransmitMessage w = None -> HandleUdpTransmit w = w).
Proof.
  split; [|apply HandleUdpTransmit_idle].
  unfold HandleUdpTransmit. destruct (mTransmitMessage w); reflexivity.
Qed.

(** C10: with a message pending, [HandleUdpTransmit] hands it to [SendTo],
    clears the reference and frees nothing, also when [SendTo] reports an
    error: the message stays in the pool as it was.  The free in the [exit:]
    block needs [error] to be set, which happens only when the reference is
    null. *)
Theorem flush_never_frees w :
  frees (trace (HandleUdpTransmit w)) = frees (trace w) /\
  pool (HandleUdpTransmit w) = pool w /\
  forall p,
    mTransmitMessage w = Some p ->
    HandleUdpTransmit w =
      set_mTransmitMessage None (snd (socket_SendTo p (mPeerAddress w) w)) /\
    trace (HandleUdpTransmit w) =
      trace w ++ [EvSendTo p (pool w !! p) (mPeerAddress w)
                    (fst (udp_SendTo (pool w !! p) (mPeerAddress w) (udp w)))].
Proof.
  destruct (mTransmitMessage w) as [p|] eqn:Hp.
  - rewrite (HandleUdpTransmit_pending _ _ Hp). simpl.
    rewrite trace_socket_SendTo, frees_app. simpl. rewrite app_nil_r.
    split; [reflexivity|]. split.
    + unfold socket_SendTo. destruct (udp_SendTo _ _ _); reflexivity.
    + intros q [= <-]. split; reflexivity.
  - rewrite (HandleUdpTransmit_idle _ Hp). split; [reflexivity|].
    split; [reflexivity|]. intros q Hq; discriminate.
Qed.

(** ** The frame of the handlers *)

Lemma frame_refl w : frame w w.
Proof. repeat split. exists []. rewrite app_nil_r. auto. Qed.

Lemma frame_trans w1 w2 w3 : frame w1 w2 -> frame w2 w3 -> frame w1 w3.
Proof.
  intros (Hc1 & Hx1 & Hp1 & l1 & Ht1 & Hl1) (Hc2 & Hx2 & Hp2 & l2 & Ht2 & Hl2).
  repeat split; try congruence.
  exists (l1 ++ l2). rewrite Ht2, Ht1, <- app_assoc, connecteds_app, Hl1, Hl2. auto.
Qed.

Lemma frame_emit e w : connected_of e = None -> frame w (emit e w).
Proof.
  intros He. repeat split. exists [e]. split; [reflexivity|].
  unfold connecteds. simpl. rewrite He. reflexivity.
Qed.

Lemma frame_set_pool v w : frame w (set_pool v w).
Proof. repeat split. exists []. simpl. rewrite app_nil_r. auto. Qed.

Lemma frame_set_mTransmitMessage v w : frame w (set_mTransmitMessage v w).
Proof. repeat split. exists []. simpl. rewrite app_nil_r. auto. Qed.

Lemma frame_set_mTransmitTaskPosted v w : frame w (set_mTransmitTaskPosted v w).
Proof. repeat split. exists []. simpl. rewrite app_nil_r. auto. Qed.

Lemma frame_set_mBuffer v w : frame w (set_mBuffer v w).
Proof. repeat split. exists []. simpl. rewrite app_nil_r. auto. Qed.

Lemma frame_set_dtls v w : frame w (set_dtls v w).
Proof. repeat split. exists []. simpl. rewrite app_nil_r. auto. Qed.

Lemma frame_set_base v w : frame w (set_base v w).
Proof. repeat split. exists []. simpl. rewrite app_nil_r. auto. Qed.

Lemma frame_set_udp v w : frame w (set_udp v w).
Proof. repeat split. exists []. simpl. rewrite app_nil_r. auto. Qed.

Lemma frame_msg_Free p w : frame w (msg_Free p w).
Proof.
  unfold msg_Free. eapply frame_trans; [apply frame_set_pool|].
  apply frame_emit; reflexivity.
Qed.

Lemma frame_msg_Append p aBuf w : frame w (snd (msg_Append p aBuf w)).
Proof.
  unfold msg_Append; simpl.
  destruct (isError _).
  - apply frame_emit; reflexivity.
  - eapply frame_trans; [apply frame_set_pool|]. apply frame_emit; reflexivity.
Qed.

Lemma frame_pool_New w : frame w (snd (pool_New w)).
Proof.
  unfold pool_New. destruct (pool_New_ok _); simpl.
  - eapply frame_trans; [apply frame_set_pool|]. apply frame_emit; reflexivity.
  - apply frame_emit; reflexivity.
Qed.

Lemma frame_task_Post w : frame w (task_Post w).
Proof.
  unfold task_Post. eapply frame_trans; [apply frame_set_mTransmitTaskPosted|].
  apply frame_emit; reflexivity.
Qed.

Lemma frame_msg_SetLinkSecurityEnabled p b w : frame w (msg_SetLinkSecurityEnabled p b w).
Proof.
  unfold msg_SetLinkSecurityEnabled. eapply frame_trans; [apply frame_set_pool|].
  apply frame_emit; reflexivity.
Qed.

Lemma frame_socket_SendTo p i w : frame w (snd (socket_SendTo p i w)).
Proof.
  unfold socket_SendTo. destruct (udp_SendTo _ _ _); simpl.
  eapply frame_trans; [apply frame_set_udp|]. apply frame_emit; reflexivity.
Qed.

Lemma frame_HandleDtlsSend_exit e w : frame w (snd (HandleDtlsSend_exit e w)).
Proof.
  unfold HandleDtlsSend_exit; simpl.
  destruct (isError e); [|apply frame_refl].
  destruct (mTransmitMessage w); [apply frame_msg_Free|apply frame_refl].
Qed.

Lemma frame_HandleDtlsSend_append p aBuf w : frame w (snd (HandleDtlsSend_append p aBuf w)).
Proof.
  unfold HandleDtlsSend_append.
  pose proof (frame_msg_Append p aBuf w) as H.
  destruct (msg_Append p aBuf w) as [r w1]; simpl in H.
  destruct r;
    try (eapply frame_trans; [exact H|]; apply frame_HandleDtlsSend_exit).
  eapply frame_trans; [exact H|].
  eapply frame_trans; [apply frame_task_Post|]. apply frame_HandleDtlsSend_exit.
Qed.

Lemma frame_HandleDtlsSend aBuf w : frame w (snd (HandleDtlsSend aBuf w)).
Proof.
  unfold HandleDtlsSend.
  destruct (mTransmitMessage w); [apply frame_HandleDtlsSend_append|].
  pose proof (frame_pool_New w) as H.
  destruct (pool_New w) as [r w1]; simpl in H.
  eapply frame_trans; [exact H|].
  eapply frame_trans; [apply (frame_set_mTransmitMessage r)|].
  destruct r.
  - eapply frame_trans; [apply frame_msg_SetLinkSecurityEnabled|].
    apply frame_HandleDtlsSend_append.
  - apply frame_HandleDtlsSend_exit.
Qed.

Lemma frame_HandleDtlsReceive aBuf w : frame w (HandleDtlsReceive aBuf w).
Proof.
  unfold HandleDtlsReceive.
  pose proof (frame_pool_New w) as H.
  destruct (pool_New w) as [r w1]; simpl in H.
  destruct r as [p|]; [|exact H].
  eapply frame_trans; [exact H|].
  pose proof (frame_msg_Append p aBuf w1) as H1.
  destruct (msg_Append p aBuf w1) as [r w2]; simpl in H1.
  eapply frame_trans; [exact H1|].
  destruct (isError r); [apply frame_msg_Free|].
  eapply frame_trans; [|apply frame_msg_Free].
  unfold ProcessReceivedMessage.
  eapply frame_trans; [apply frame_set_base|]. apply frame_emit; reflexivity.
Qed.

Lemma frame_runDtls {R : Type} (s : DtlsScript Dtls R) :
  forall w, frame w (snd (runDtls s w)).
Proof.
  induction s as [r d|aBuf k IH|aBuf k IH]; intros w; simpl.
  - apply frame_set_dtls.
  - pose proof (frame_HandleDtlsSend aBuf w) as H.
    destruct (HandleDtlsSend aBuf w) as [e w1]; simpl in H.
    eapply frame_trans; [exact H|apply IH].
  - eapply frame_trans; [apply frame_HandleDtlsReceive|apply IH].
Qed.

Lemma frame_Disconnect w : frame w (snd (Disconnect w)).
Proof.
  unfold Disconnect. eapply frame_trans; [|apply frame_runDtls].
  apply frame_emit; reflexivity.
Qed.

Lemma frame_Send a i w : frame w (snd (Send a i w)).
Proof.
  unfold Send. destruct (_ <=? _); [|apply frame_refl].
  set (w1 := msg_Read_into_mBuffer _ _ _).
  set (b := take _ _).
  pose proof (frame_runDtls (dtls_Send b (dtls w1)) (emit (EvDtlsSend b) w1)) as H.
  destruct (runDtls _ _) as [e w2]; simpl in H.
  assert (frame w w2) as Hw.
  { eapply frame_trans; [|exact H].
    eapply frame_trans; [|apply frame_emit; reflexivity].
    unfold w1, msg_Read_into_mBuffer.
    eapply frame_trans; [apply frame_set_mBuffer|]. apply frame_emit; reflexivity. }
  destruct (isError e); simpl; [exact Hw|].
  eapply frame_trans; [exact Hw|apply frame_msg_Free].
Qed.

Lemma frame_runClient {R : Type} (s : ClientScript Base R) :
  forall w, frame w (snd (runClient s w)).
Proof.
  induction s as [r b|a i k IH]; intros w; simpl.
  - apply frame_set_base.
  - pose proof (frame_Send a i w) as H.
    destruct (Send a i w) as [e w1]; simpl in H.
    eapply frame_trans; [exact H|apply IH].
Qed.

Lemma frame_SendMessage a h c w : frame w (snd (SendMessage a h c w)).
Proof.
  unfold SendMessage. destruct (IsConnected w); [|apply frame_refl].
  eapply frame_trans; [|apply frame_runClient]. apply frame_emit; reflexivity.
Qed.

Lemma frame_HandleUdpTransmit w : frame w (HandleUdpTransmit w).
Proof.
  destruct (mTransmitMessage w) as [p|] eqn:Hp.
  - rewrite (HandleUdpTransmit_pending _ _ Hp).
    eapply frame_trans; [apply frame_socket_SendTo|apply frame_set_mTransmitMessage].
  - rewrite (HandleUdpTransmit_idle _ Hp). apply frame_refl.
Qed.

Lemma frame_RunTransmitTask w : frame w (RunTransmitTask w).
Proof.
  unfold RunTransmitTask. destruct (mTransmitTaskPosted w); [|apply frame_refl].
  eapply frame_trans; [apply frame_set_mTransmitTaskPosted|apply frame_HandleUdpTransmit].
Qed.

Lemma frame_Stop w : frame w (snd (Stop w)).
Proof.
  unfold Stop.
  set (w1 := if IsConnectionStarted w then _ else _).
  assert (frame w w1) as H1.
  { unfold w1. destruct (IsConnectionStarted w); [apply frame_Disconnect|apply frame_refl]. }
  set (w2 := match mTransmitMessage w1 with Some _ => _ | None => _ end).
  assert (frame w1 w2) as H2.
  { unfold w2. destruct (mTransmitMessage w1); [|apply frame_refl].
    eapply frame_trans; [apply frame_msg_Free|apply frame_set_mTransmitMessage]. }
  unfold base_Stop. destruct (client_Stop (base w2)) as [r b]; simpl.
  eapply frame_trans; [exact H1|]. eapply frame_trans; [exact H2|].
  eapply frame_trans; [apply frame_set_base|]. apply frame_emit; reflexivity.
Qed.

(** ** Inbound session binding *)

(** C4: a datagram whose source differs from the bound peer in the address or
    in the port leaves the world as it is: the engine's receive operation is
    not called, the connected callback is not invoked, nothing changes. *)
Theorem Receive_from_other_endpoint (aMessage : Message) (aMessageInfo : MessageInfo) w :
  mPeerAddr aMessageInfo <> mPeerAddr (mPeerAddress w) \/
  mPeerPort aMessageInfo <> mPeerPort (mPeerAddress w) ->
  Receive aMessage aMessageInfo w = w /\
  dtlsReceives (trace (Receive aMessage aMessageInfo w)) = dtlsReceives (trace w) /\
  connecteds (trace (Receive aMessage aMessageInfo w)) = connecteds (trace w).
Proof.
  intros Hdiff.
  assert (Receive aMessage aMessageInfo w = w) as ->; [|auto].
  unfold Receive.
  destruct (mPeerAddr (mPeerAddress w) =? mPeerAddr aMessageInfo) eqn:Ha;
    destruct (mPeerPort (mPeerAddress w) =? mPeerPort aMessageInfo) eqn:Hp;
    simpl; try reflexivity.
  apply Z.eqb_eq in Ha, Hp. destruct Hdiff; congruence.
Qed.

(** ** Outbound message adapter *)

(** C6: while the engine is not connected, [SendMessage] returns
    [kThreadError_InvalidState] and leaves the world as it is: nothing is
    handed to the base client, nothing is sent. *)
Theorem SendMessage_not_connected (aMessage : MsgPtr) (aHandler : nat)
    (aContext : Context) w :
  IsConnected w = false ->
  SendMessage aMessage aHandler aContext w = (kThreadError_InvalidState, w).
Proof. intros H. unfold SendMessage. rewrite H. reflexivity. Qed.

(** ** Connection lifecycle *)

Lemma Connect_fields (aMessageInfo : MessageInfo)
    (aCallback : option ConnectedCallback) (aContext : Context) w :
  mPeerAddress (snd (Connect aMessageInfo aCallback aContext w)) = aMessageInfo /\
  mConnectedCallback (snd (Connect aMessageInfo aCallback aContext w)) = aCallback /\
  mContext (snd (Connect aMessageInfo aCallback aContext w)) = aContext.
Proof.
  unfold Connect.
  match goal with |- context [runDtls ?s ?w0] =>
    destruct (frame_runDtls s w0) as (Hc & Hx & Hp & _) end.
  simpl in Hc, Hx, Hp. auto.
Qed.

(** C9: [Connect] stores the peer, the callback and the context and only then
    starts the engine, on the world that already holds them; whatever the
    engine returns, error or not, the three fields hold the new arguments
    afterwards. *)
Theorem Connect_stores_arguments (aMessageInfo : MessageInfo)
    (aCallback : option ConnectedCallback) (aContext : Context) w :
  Connect aMessageInfo aCallback aContext w =
    runDtls (dtls_Start true (dtls w))
      (emit EvDtlsStart
         (set_mContext aContext
            (set_mConnectedCallback aCallback (set_mPeerAddress aMessageInfo w)))) /\
  forall e w',
    Connect aMessageInfo aCallback aContext w = (e, w') ->
    mPeerAddress w' = aMessageInfo /\
    mConnectedCallback w' = aCallback /\
    mContext w' = aContext.
Proof.
  split; [reflexivity|]. intros e w' H.
  pose proof (Connect_fields aMessageInfo aCallback aContext w) as Hf.
  rewrite H in Hf. exact Hf.
Qed.

(** C8: [Stop] disconnects first when the engine is started, then frees the
    pending message if there is one and clears the reference, then calls the
    base client's [Stop] and returns its result; afterwards no pending
    message is referenced. *)
Theorem Stop_sequence w :
  let w1 := if IsConnectionStarted w then snd (Disconnect w) else w in
  (IsConnectionStarted w = true ->
     exists l, trace w1 = trace w ++ EvDtlsStop :: l) /\
  (IsConnectionStarted w = false -> w1 = w) /\
  trace (snd (Stop w)) =
    trace w1 ++
    match mTransmitMessage w1 with Some p => [EvFree p] | None => [] end ++
    [EvClientStop] /\
  pool (snd (Stop w)) =
    match mTransmitMessage w1 with Some p => delete p (pool w1) | None => pool w1 end /\
  fst (Stop w) = fst (client_Stop (base w1)) /\
  mTransmitMessage (snd (Stop w)) = None.
Proof.
  intros w1. split; [|split].
  - intros Hs. unfold w1. rewrite Hs. unfold Disconnect.
    destruct (frame_runDtls (dtls_Stop (dtls w)) (emit EvDtlsStop w))
      as (_ & _ & _ & l & Hl & _).
    exists l. rewrite Hl. simpl. rewrite <- app_assoc. reflexivity.
  - intros Hs. unfold w1. rewrite Hs. reflexivity.
  - unfold Stop. fold w1. unfold base_Stop.
    destruct (mTransmitMessage w1) as [p|] eqn:Hp; simpl;
      destruct (client_Stop _) as [r b] eqn:Hb; simpl.
    + rewrite <- app_assoc. repeat split.
    + rewrite Hp. repeat split.
Qed.

(** ** The connected callback *)

Lemma frame_connecteds w w' : frame w w' -> connecteds (trace w') = connecteds (trace w).
Proof.
  intros (_ & _ & _ & l & Hl & Hn). rewrite Hl, connecteds_app, Hn, app_nil_r. reflexivity.
Qed.

Lemma run_cons o ops w : run (o :: ops) w = run ops (step o w).
Proof. reflexivity. Qed.

Lemma run_app ops1 ops2 w : run (ops1 ++ ops2) w = run ops2 (run ops1 w).
Proof. apply foldl_app. Qed.

(** One step either leaves the callback registered as it was and does not
    invoke it, or invokes the registered callback once with the stored
    context, clears it, and returns with the engine connected. *)
Lemma step_callback o w :
  frame w (step o w) \/
  exists c,
    mConnectedCallback w = Some c /\
    connecteds (trace (step o w)) = connecteds (trace w) ++ [(c, mContext w)] /\
    mConnectedCallback (step o w) = None /\
    IsConnected (step o w) = true.
Proof.
  destruct o as [m i|a h c|a i| | | | |pl]; simpl.
  - unfold Receive. destruct (_ && _); [|left; apply frame_refl].
    set (l := to_uint16 _).
    pose proof (frame_runDtls (dtls_Receive m (mOffset m) l (dtls w))
                  (emit (EvDtlsReceive m (mOffset m) l) w)) as H.
    set (w1 := snd (runDtls _ _)) in *.
    assert (frame w w1) as Hw.
    { eapply frame_trans; [|exact H]. apply frame_emit; reflexivity. }
    destruct (IsConnected w1) eqn:Hconn; [|left; exact Hw].
    destruct (mConnectedCallback w1) as [cb|] eqn:Hcb; [|left; exact Hw].
    right. exists cb. destruct Hw as (Hc & Hx & _ & l' & Hl' & Hn).
    split; [congruence|]. split; [|split; [reflexivity|exact Hconn]].
    simpl. rewrite connecteds_app, Hl', connecteds_app, Hn, app_nil_r, Hx. reflexivity.
  - left. apply frame_SendMessage.
  - left. apply frame_Send.
  - left. apply frame_Disconnect.
  - left. apply frame_Stop.
  - left. apply frame_RunTransmitTask.
  - left. apply frame_runDtls.
  - left. apply frame_set_pool.
Qed.

Lemma step_cleared o w : mConnectedCallback w = None -> frame w (step o w).
Proof.
  intros Hnone. destruct (step_callback o w) as [H|(c & Hc & _)]; [exact H|congruence].
Qed.

Lemma run_cleared ops : forall w, mConnectedCallback w = None -> frame w (run ops w).
Proof.
  induction ops as [|o ops IH]; intros w Hnone; [apply frame_refl|].
  rewrite run_cons. pose proof (step_cleared o w Hnone) as H.
  eapply frame_trans; [exact H|]. apply IH. destruct H as (Hc & _). congruence.
Qed.

(** Over any run the callback is left alone, or it has been invoked exactly
    once, with the stored context, and is cleared. *)
Lemma run_callback ops :
  forall w,
    frame w (run ops w) \/
    exists c,
      mConnectedCallback w = Some c /\
      connecteds (trace (run ops w)) = connecteds (trace w) ++ [(c, mContext w)] /\
      mConnectedCallback (run ops w) = None.
Proof.
  induction ops as [|o ops IH]; intros w; [left; apply frame_refl|].
  rewrite run_cons.
  destruct (step_callback o w) as [H|(c & Hc & Hfired & Hnone & _)].
  - destruct (IH (step o w)) as [H'|(c & Hc & Hfired & Hnone)].
    + left. eapply frame_trans; eauto.
    + right. exists c. pose proof (frame_connecteds _ _ H) as Hsame.
      destruct H as (Hcb & Hctx & _). rewrite <- Hcb, <- Hsame, <- Hctx. auto.
  - right. exists c. pose proof (run_cleared ops _ Hnone) as H'.
    rewrite (frame_connecteds _ _ H'). destruct H' as (Hcb & _).
    split; [exact Hc|]. split; [exact Hfired|congruence].
Qed.

(** *** After the session has been stopped *)

Lemma runDtls_ends {R : Type} (P : R -> Dtls -> Prop) (s : DtlsScript Dtls R) :
  DtlsEnds P s -> forall w, P (fst (runDtls s w)) (dtls (snd (runDtls s w))).
Proof.
  induction s as [r d|aBuf k IH|aBuf k IH]; simpl; intros H w.
  - exact H.
  - destruct (HandleDtlsSend aBuf w) as [e w1]. apply IH, H.
  - apply IH, H.
Qed.

Lemma dtls_HandleUdpTransmit w : dtls (HandleUdpTransmit w) = dtls w.
Proof.
  destruct (mTransmitMessage w) as [p|] eqn:Hp.
  - rewrite (HandleUdpTransmit_pending _ _ Hp). unfold socket_SendTo.
    destruct (udp_SendTo _ _ _); reflexivity.
  - rewrite (HandleUdpTransmit_idle _ Hp). reflexivity.
Qed.

Lemma dtls_after_free_and_base_Stop w :
  dtls (snd (base_Stop
               match mTransmitMessage w with
               | Some p => set_mTransmitMessage None (msg_Free p w)
               | None => w
               end)) = dtls w.
Proof.
  unfold base_Stop. destruct (mTransmitMessage w); destruct (client_Stop _); reflexivity.
Qed.

(** Once the engine is not started, no step starts it and no step invokes
    the callback. *)
Lemma step_stopped o w :
  DtlsLifecycle ->
  dtls_IsStarted (dtls w) = false ->
  dtls_IsStarted (dtls (step o w)) = false /\
  connecteds (trace (step o w)) = connecteds (trace w).
Proof.
  intros (Hstop & Hidle & Hrecv & Hsend & Htimer) Hs.
  destruct o as [m i|a h c|a i| | | | |pl]; simpl.
  - unfold Receive. destruct (_ && _); [|auto].
    set (l := to_uint16 _).
    pose proof (runDtls_ends _ _ (Hrecv m (mOffset m) l _ Hs)
                  (emit (EvDtlsReceive m (mOffset m) l) w)) as Hend.
    pose proof (frame_runDtls (dtls_Receive m (mOffset m) l (dtls w))
                  (emit (EvDtlsReceive m (mOffset m) l) w)) as H.
    set (w1 := snd (runDtls _ _)) in *. simpl in Hend.
    unfold IsConnected. rewrite (Hidle _ Hend). split; [exact Hend|].
    rewrite (frame_connecteds _ _ H). simpl. rewrite connecteds_app. simpl.
    apply app_nil_r.
  - unfold SendMessage, IsConnected. rewrite (Hidle _ Hs). auto.
  - split; [|apply frame_connecteds, frame_Send].
    unfold Send. destruct (_ <=? _); [|exact Hs].
    set (w1 := msg_Read_into_mBuffer _ _ _). set (b := take _ _).
    pose proof (runDtls_ends _ _ (Hsend b _ Hs) (emit (EvDtlsSend b) w1)) as Hend.
    change (dtls w) with (dtls w1) in Hend.
    destruct (runDtls _ _) as [e w2]; simpl in Hend.
    destruct (isError e); exact Hend.
  - split; [|apply frame_connecteds, frame_Disconnect].
    unfold Disconnect. apply (runDtls_ends _ _ (Hstop (dtls w))).
  - split; [|apply frame_connecteds, frame_Stop].
    unfold Stop, IsConnectionStarted. rewrite Hs.
    rewrite dtls_after_free_and_base_Stop. exact Hs.
  - split; [|apply frame_connecteds, frame_RunTransmitTask].
    unfold RunTransmitTask. destruct (mTransmitTaskPosted w); [|exact Hs].
    rewrite dtls_HandleUdpTransmit. exact Hs.
  - split; [|apply frame_connecteds, frame_runDtls].
    apply (runDtls_ends _ _ (Htimer _ Hs)).
  - split; [exact Hs|apply frame_connecteds, (frame_set_pool pl)].
Qed.

Lemma run_stopped ops :
  DtlsLifecycle ->
  forall w,
    dtls_IsStarted (dtls w) = false ->
    connecteds (trace (run ops w)) = connecteds (trace w).
Proof.
  intros HL. induction ops as [|o ops IH]; intros w Hs; [reflexivity|].
  rewrite run_cons. destruct (step_stopped o w HL Hs) as [Hs' Hsame].
  rewrite (IH _ Hs'). exact Hsame.
Qed.

Lemma Disconnect_stops w :
  DtlsLifecycle -> dtls_IsStarted (dtls (snd (Disconnect w))) = false.
Proof.
  intros (Hstop & _). unfold Disconnect. apply (runDtls_ends _ _ (Hstop (dtls w))).
Qed.

(** C3: after a successful [Connect], over any sequence of incoming
    datagrams and other operations up to the next [Connect], the connected
    callback is invoked at most once, and then with the context given to
    [Connect]; the step that invokes it returns with [IsConnected()] true;
    once it has been invoked it is not invoked again; and, with an engine
    that keeps to the session lifecycle, it is not invoked after
    [Disconnect]. *)
Theorem connected_callback_one_shot (aMessageInfo : MessageInfo)
    (aCallback : option ConnectedCallback) (aContext : Context) (w0 : World)
    (ops : list Op) :
  fst (Connect aMessageInfo aCallback aContext w0) = kThreadError_None ->
  let w1 := snd (Connect aMessageInfo aCallback aContext w0) in
  (exists fired,
     connecteds (trace (run ops w1)) = connecteds (trace w0) ++ fired /\
     (fired = [] \/ exists c, aCallback = Some c /\ fired = [(c, aContext)])) /\
  (forall pre o post,
     ops = pre ++ o :: post ->
     connecteds (trace (run (pre ++ [o]) w1)) <> connecteds (trace (run pre w1)) ->
     IsConnected (run (pre ++ [o]) w1) = true) /\
  (forall pre post,
     ops = pre ++ post ->
     connecteds (trace (run pre w1)) <> connecteds (trace w0) ->
     connecteds (trace (run ops w1)) = connecteds (trace (run pre w1))) /\
  (DtlsLifecycle ->
   forall pre post,
     ops = pre ++ OpDisconnect :: post ->
     connecteds (trace (run ops w1)) = connecteds (trace (run pre w1))).
Proof.
  intros _ w1.
  destruct (Connect_fields aMessageInfo aCallback aContext w0) as (_ & Hcb & Hctx).
  fold w1 in Hcb, Hctx.
  assert (connecteds (trace w1) = connecteds (trace w0)) as Hw1.
  { unfold w1, Connect. rewrite (frame_connecteds _ _ (frame_runDtls _ _)). simpl.
    rewrite connecteds_app. apply app_nil_r. }
  split; [|split; [|split]].
  - destruct (run_callback ops w1) as [H|(c & Hc & Hfired & _)].
    + exists []. rewrite (frame_connecteds _ _ H), Hw1, app_nil_r. auto.
    + exists [(c, aContext)]. rewrite Hfired, Hw1, Hctx. split; [reflexivity|].
      right. exists c. split; [congruence|reflexivity].
  - intros pre o post _ Hnew. rewrite run_app in *. simpl in *.
    destruct (step_callback o (run pre w1)) as [H|(c & _ & _ & _ & Hconn)]; [|exact Hconn].
    exfalso. apply Hnew. apply frame_connecteds, H.
  - intros pre post -> Hfired. rewrite run_app.
    destruct (run_callback pre w1) as [H|(c & _ & _ & Hnone)].
    + exfalso. apply Hfired. rewrite (frame_connecteds _ _ H). exact Hw1.
    + apply frame_connecteds, run_cleared, Hnone.
  - intros HL pre post ->. rewrite run_app, run_cons. simpl.
    rewrite (run_stopped post HL _ (Disconnect_stops _ HL)).
    apply frame_connecteds, frame_Disconnect.
Qed.

(** ** Ownership of the caller's message in [Send] *)

Lemma untouched_refl a w : mTransmitMessage w <> Some a -> untouched a w w.
Proof.
  intros H. split; [reflexivity|]. split; [exact H|].
  exists []. rewrite app_nil_r. split; [reflexivity|]. apply not_elem_of_nil.
Qed.

Lemma untouched_trans a w1 w2 w3 :
  untouched a w1 w2 -> untouched a w2 w3 -> untouched a w1 w3.
Proof.
  intros (Hp1 & _ & l1 & Ht1 & Hl1) (Hp2 & Hm2 & l2 & Ht2 & Hl2).
  split; [congruence|]. split; [exact Hm2|].
  exists (l1 ++ l2). rewrite Ht2, Ht1, <- app_assoc. split; [reflexivity|].
  rewrite frees_app, elem_of_app. tauto.
Qed.

Lemma fresh_not_live (pl : gmap nat Message) a :
  is_Some (pl !! a) -> fresh (dom pl) <> a.
Proof.
  intros Hlive Heq. apply elem_of_dom in Hlive.
  apply (is_fresh (dom pl)). rewrite Heq. exact Hlive.
Qed.

Ltac trace_suffix :=
  eexists; split; [simpl; rewrite <- ?app_assoc; reflexivity|];
  simpl; repeat (rewrite not_elem_of_cons; split; [congruence|]); apply not_elem_of_nil.

Lemma untouched_HandleDtlsSend_append a p aBuf w :
  p <> a ->
  mTransmitMessage w = Some p ->
  untouched a w (snd (HandleDtlsSend_append p aBuf w)).
Proof.
  intros Hne Hp. unfold HandleDtlsSend_append, msg_Append.
  destruct (msg_Append_result (pool w) p aBuf); simpl; rewrite ?Hp;
    (split; [simpl; rewrite ?lookup_delete_ne, ?lookup_alter_ne by exact Hne; reflexivity|];
     split; [simpl; congruence|]; trace_suffix).
Qed.

Lemma untouched_HandleDtlsSend a aBuf w :
  is_Some (pool w !! a) ->
  mTransmitMessage w <> Some a ->
  untouched a w (snd (HandleDtlsSend aBuf w)).
Proof.
  intros Hlive Hnp. unfold HandleDtlsSend.
  destruct (mTransmitMessage w) as [p|] eqn:Hp.
  - apply untouched_HandleDtlsSend_append; congruence.
  - unfold pool_New. pose proof (fresh_not_live _ _ Hlive) as Hfresh.
    destruct (pool_New_ok (pool w)); simpl.
    + set (p := fresh (dom (pool w))) in *.
      eapply untouched_trans; [|apply untouched_HandleDtlsSend_append; [exact Hfresh|reflexivity]].
      split; [simpl; rewrite lookup_alter_ne, lookup_insert_ne by exact Hfresh; reflexivity|].
      split; [simpl; congruence|]. trace_suffix.
    + split; [reflexivity|]. split; [simpl; congruence|]. trace_suffix.
Qed.

Lemma untouched_HandleDtlsReceive a aBuf w :
  is_Some (pool w !! a) ->
  mTransmitMessage w <> Some a ->
  untouched a w (HandleDtlsReceive aBuf w).
Proof.
  intros Hlive Hnp. unfold HandleDtlsReceive, pool_New.
  pose proof (fresh_not_live _ _ Hlive) as Hfresh.
  destruct (pool_New_ok (pool w)); simpl.
  - set (p := fresh (dom (pool w))) in *.
    unfold msg_Append; simpl. set (r := msg_Append_result _ p aBuf).
    destruct (isError r); simpl;
      (split; [simpl; rewrite lookup_delete_ne, ?lookup_alter_ne, lookup_insert_ne
                 by exact Hfresh; reflexivity|];
       split; [simpl; exact Hnp|]; trace_suffix).
  - split; [reflexivity|]. split; [exact Hnp|]. trace_suffix.
Qed.

Lemma untouched_runDtls {R : Type} a (s : DtlsScript Dtls R) :
  forall w,
    is_Some (pool w !! a) ->
    mTransmitMessage w <> Some a ->
    untouched a w (snd (runDtls s w)).
Proof.
  induction s as [r d|aBuf k IH|aBuf k IH]; intros w Hlive Hnp; simpl.
  - split; [reflexivity|]. split; [exact Hnp|]. exists []. rewrite app_nil_r.
    split; [reflexivity|apply not_elem_of_nil].
  - pose proof (untouched_HandleDtlsSend a aBuf w Hlive Hnp) as H.
    destruct (HandleDtlsSend aBuf w) as [e w1]; simpl in H.
    eapply untouched_trans; [exact H|].
    destruct H as (Hpool & Hnp1 & _). apply IH; [rewrite Hpool; exact Hlive|exact Hnp1].
  - pose proof (untouched_HandleDtlsReceive a aBuf w Hlive Hnp) as H.
    eapply untouched_trans; [exact H|].
    destruct H as (Hpool & Hnp1 & _). apply IH; [rewrite Hpool; exact Hlive|exact Hnp1].
Qed.

(** With the message within the capacity, [Send] hands the engine exactly
    the bytes of the message. *)
Lemma Send_within_capacity a i m w :
  pool w !! a = Some m ->
  GetLength m <= kMaxMessageLength ->
  Send a i w =
    let '(e, w2) :=
      runDtls (dtls_Send (mPayload m) (dtls w))
        (emit (EvDtlsSend (mPayload m)) (msg_Read_into_mBuffer a (GetLength m) w)) in
    (e, if isError e then w2 else msg_Free a w2).
Proof.
  intros Hm Hle. unfold Send, msg_GetLength. rewrite Hm.
  apply Z.leb_le in Hle. rewrite Hle.
  assert (take (Z.to_nat (GetLength m)) (mBuffer (msg_Read_into_mBuffer a (GetLength m) w))
          = mPayload m) as ->.
  { unfold msg_Read_into_mBuffer, GetLength. simpl. rewrite Hm, Nat2Z.id.
    rewrite firstn_all. apply take_app_length. }
  simpl. destruct (runDtls _ _) as [e w2]. destruct (isError e); reflexivity.
Qed.

(** What [Send] keeps to as long as [mTransmitMessage] does not hold the
    address of the caller's message: for such a live message, [Send] returns
    [kThreadError_NoBufs] and does nothing when the length exceeds
    [kMaxMessageLength]; otherwise it returns what the engine's [Send]
    returned on the bytes of the message.  On every error the message is in
    the pool as before and no call has freed it; on success, and only then,
    the message is freed, as the last thing [Send] does. *)
Theorem Send_frees_on_success_only (a : MsgPtr) (i : MessageInfo) (m : Message) w :
  pool w !! a = Some m ->
  mTransmitMessage w <> Some a ->
  (kMaxMessageLength < GetLength m -> Send a i w = (kThreadError_NoBufs, w)) /\
  (GetLength m <= kMaxMessageLength ->
   fst (Send a i w) =
     fst (runDtls (dtls_Send (mPayload m) (dtls w))
            (emit (EvDtlsSend (mPayload m)) (msg_Read_into_mBuffer a (GetLength m) w)))) /\
  (fst (Send a i w) <> kThreadError_None ->
   pool (snd (Send a i w)) !! a = Some m /\
   exists l, trace (snd (Send a i w)) = trace w ++ l /\ a ∉ frees l) /\
  (fst (Send a i w) = kThreadError_None ->
   GetLength m <= kMaxMessageLength /\
   pool (snd (Send a i w)) !! a = None /\
   exists l, trace (snd (Send a i w)) = trace w ++ l ++ [EvFree a] /\ a ∉ frees l).
Proof.
  intros Hm Hnp.
  destruct (Z.lt_ge_cases kMaxMessageLength (GetLength m)) as [Hgt|Hle].
  - assert (Send a i w = (kThreadError_NoBufs, w)) as Hs.
    { unfold Send, msg_GetLength. rewrite Hm.
      apply Z.leb_gt in Hgt. rewrite Hgt. reflexivity. }
    split; [auto|]. split; [lia|]. rewrite Hs; simpl. split; [|discriminate].
    intros _. split; [exact Hm|]. exists []. rewrite app_nil_r.
    split; [reflexivity|apply not_elem_of_nil].
  - split; [lia|]. rewrite (Send_within_capacity _ _ _ _ Hm Hle).
    set (w1 := emit _ _).
    assert (untouched a w w1) as H1.
    { split; [reflexivity|]. split; [exact Hnp|]. unfold w1. trace_suffix. }
    assert (untouched a w1 (snd (runDtls (dtls_Send (mPayload m) (dtls w)) w1))) as H2.
    { apply untouched_runDtls; [|apply H1]. destruct H1 as (-> & _). eauto. }
    pose proof (untouched_trans _ _ _ _ H1 H2) as (Hpool & _ & l & Hl & Hnotin).
    destruct (runDtls _ _) as [e w2]; simpl in *.
    split; [auto|]. destruct e; simpl;
      try (split; [intros _; split; [congruence|eauto]|discriminate]).
    split; [congruence|]. intros _. split; [exact Hle|].
    split; [apply lookup_delete_eq|]. exists l. rewrite Hl, app_assoc. auto.
Qed.

(** ** Failure of [HandleDtlsSend] *)

(** X16: every failure is reported as [kThreadError_NoBufs].  When the allocation
    failed, nothing is pending afterwards.  When the append failed, the
    pending message has been freed and [mTransmitMessage] still points
    to it. *)
Lemma HandleDtlsSend_failure aBuf w e w' :
  HandleDtlsSend aBuf w = (e, w') ->
  e <> kThreadError_None ->
  e = kThreadError_NoBufs /\
  ((mTransmitMessage w = None /\ pool_New_ok (pool w) = false /\
    mTransmitMessage w' = None /\ frees (trace w') = frees (trace w)) \/
   (exists p, mTransmitMessage w' = Some p /\ pool w' !! p = None /\
              frees (trace w') = frees (trace w) ++ [p])).
Proof.
  unfold HandleDtlsSend.
  destruct (mTransmitMessage w) as [p|] eqn:Hp.
  - unfold HandleDtlsSend_append, msg_Append.
    destruct (msg_Append_result (pool w) p aBuf); simpl;
      intros [= <- <-] He; try congruence;
      (split; [reflexivity|]; right; exists p; simpl; rewrite Hp; simpl;
       split; [exact Hp|]; split; [apply lookup_delete_eq|];
       rewrite !frees_app; simpl; rewrite app_nil_r; reflexivity).
  - unfold pool_New. destruct (pool_New_ok (pool w)) eqn:Hok; simpl.
    + set (p := fresh (dom (pool w))).
      unfold HandleDtlsSend_append, msg_Append; simpl.
      destruct (msg_Append_result _ p aBuf); simpl;
        intros [= <- <-] He; try congruence;
        (split; [reflexivity|]; right; exists p; simpl;
         split; [reflexivity|]; split; [apply lookup_delete_eq|];
         rewrite !frees_app; simpl; rewrite !app_nil_r; reflexivity).
    + intros [= <- <-] _. split; [reflexivity|]. left. simpl.
      rewrite frees_app. simpl. rewrite app_nil_r. auto.
Qed.

End Properties.

(** * Further properties of the code *)

Section FurtherProperties.
Context {C : Collaborators}.

Implicit Types (w : World) (p : MsgPtr) (aBuf : list byte).

Lemma processeds_app (t1 t2 : list Event) :
  processeds (t1 ++ t2) = processeds t1 ++ processeds t2.
Proof. apply omap_app. Qed.

Lemma sentMessages_app (t1 t2 : list Event) :
  sentMessages (t1 ++ t2) = sentMessages t1 ++ sentMessages t2.
Proof. apply omap_app. Qed.

Lemma dtlsReceiveCalls_app (t1 t2 : list Event) :
  dtlsReceiveCalls (t1 ++ t2) = dtlsReceiveCalls t1 ++ dtlsReceiveCalls t2.
Proof. apply omap_app. Qed.

(** ** [HandleDtlsReceive] *)

Lemma fresh_lookup (pl : gmap nat Message) : pl !! fresh (dom pl) = None.
Proof. apply not_elem_of_dom, is_fresh. Qed.

(** X1: the failure paths of [HandleDtlsReceive], and the release of the
    message on every path.  When the allocation fails, nothing happens but
    the failed allocation.  When the allocation succeeds and the append
    fails, the message is freed again and nothing else happens: the object
    and the pool are as before, the trace holds the three pool calls.
    Whenever the allocation succeeds, the last thing [HandleDtlsReceive]
    does is to free the message it allocated. *)
Theorem HandleDtlsReceive_failure_paths aBuf w :
  let p := fresh (dom (pool w)) in
  let r := msg_Append_result (<[p := newMessage]> (pool w)) p aBuf in
  (pool_New_ok (pool w) = false ->
   HandleDtlsReceive aBuf w = emit (EvNewMessage None) w) /\
  (pool_New_ok (pool w) = true -> isError r = true ->
   HandleDtlsReceive aBuf w =
     emit (EvFree p) (emit (EvAppend p aBuf r) (emit (EvNewMessage (Some p)) w))) /\
  (pool_New_ok (pool w) = true ->
   exists l,
     trace (HandleDtlsReceive aBuf w) =
       trace w ++ EvNewMessage (Some p) :: l ++ [EvFree p]).
Proof.
  intros p r. unfold HandleDtlsReceive, pool_New.
  split; [|split].
  - intros ->. reflexivity.
  - intros -> Hr. simpl. unfold msg_Append. simpl. fold p. fold r. rewrite Hr.
    unfold msg_Free, emit, set_pool. simpl.
    rewrite delete_insert_id by apply fresh_lookup. reflexivity.
  - intros ->. simpl. unfold msg_Append. simpl. fold p. fold r.
    destruct (isError r); simpl.
    + exists [EvAppend p aBuf r]. rewrite <- !app_assoc. reflexivity.
    + eexists [EvAppend p aBuf r; _]. rewrite <- !app_assoc. reflexivity.
Qed.

(** X2: [HandleDtlsReceive] dispatches the decrypted bytes exactly when the
    allocation and the append both succeed, and then exactly once: the
    message handed to [ProcessReceivedMessage] holds the bytes and nothing
    else, and its source is the bound peer.  In the two failure cases nothing
    is dispatched. *)
Theorem HandleDtlsReceive_dispatches aBuf w :
  processeds (trace (HandleDtlsReceive aBuf w)) =
    processeds (trace w) ++
    (if pool_New_ok (pool w) then
       if isError (msg_Append_result (<[fresh (dom (pool w)) := newMessage]> (pool w))
                     (fresh (dom (pool w))) aBuf)
       then []
       else [(Some (mkMessage aBuf 0 true), mPeerAddress w)]
     else []).
Proof.
  unfold HandleDtlsReceive, pool_New.
  destruct (pool_New_ok (pool w)); simpl.
  - set (p := fresh (dom (pool w))).
    unfold msg_Append; simpl. set (r := msg_Append_result _ p aBuf).
    destruct (isError r); simpl.
    + rewrite !processeds_app; simpl. rewrite !app_nil_r. reflexivity.
    + rewrite !processeds_app; simpl. rewrite !app_nil_r.
      rewrite lookup_alter_eq, lookup_insert_eq. reflexivity.
  - rewrite processeds_app; simpl. rewrite !app_nil_r. reflexivity.
Qed.

(** ** The outbound buffer, from idle to idle *)

(** A successful [HandleDtlsSend] with nothing pending: the pending message
    is a new message holding the chunk, with link security off, and the
    flush is posted. *)
Lemma HandleDtlsSend_first_message aBuf w w' :
  mTransmitMessage w = None ->
  HandleDtlsSend aBuf w = (kThreadError_None, w') ->
  exists p,
    mTransmitMessage w' = Some p /\ pool w' !! p = Some (mkMessage aBuf 0 false) /\
    mTransmitTaskPosted w' = true /\
    sentMessages (trace w') = sentMessages (trace w) /\
    mPeerAddress w' = mPeerAddress w.
Proof.
  intros Hnull. unfold HandleDtlsSend, pool_New. rewrite Hnull.
  destruct (pool_New_ok (pool w)); simpl; [|discriminate].
  unfold HandleDtlsSend_append, msg_Append; simpl.
  set (p := fresh (dom (pool w))).
  destruct (msg_Append_result _ p aBuf); simpl; try discriminate.
  intros [= <-]; simpl. exists p. split; [reflexivity|]. split.
  - rewrite lookup_alter_eq, lookup_alter_eq, lookup_insert_eq. reflexivity.
  - split; [reflexivity|]. split; [|reflexivity].
    rewrite !sentMessages_app. simpl. rewrite !app_nil_r. reflexivity.
Qed.

(** A successful [HandleDtlsSend] on a live pending message: the chunk is at
    its end, nothing else of the message has changed, the flush is posted. *)
Lemma HandleDtlsSend_next_message aBuf w w' p m :
  mTransmitMessage w = Some p ->
  pool w !! p = Some m ->
  HandleDtlsSend aBuf w = (kThreadError_None, w') ->
  mTransmitMessage w' = Some p /\
  pool w' !! p =
    Some (mkMessage (mPayload m ++ aBuf) (mOffset m) (mLinkSecurityEnabled m)) /\
  mTransmitTaskPosted w' = true /\
  sentMessages (trace w') = sentMessages (trace w) /\
  mPeerAddress w' = mPeerAddress w.
Proof.
  intros Hp Hm. unfold HandleDtlsSend. rewrite Hp.
  unfold HandleDtlsSend_append, msg_Append; simpl.
  destruct (msg_Append_result (pool w) p aBuf); simpl; try discriminate.
  intros [= <-]; simpl. split; [exact Hp|]. split.
  - rewrite lookup_alter_eq, Hm. reflexivity.
  - split; [reflexivity|]. split; [|reflexivity].
    rewrite !sentMessages_app. simpl. rewrite !app_nil_r. reflexivity.
Qed.

Lemma HandleDtlsSend_all_next_message (chunks : list (list byte)) :
  forall w w' es p m,
    mTransmitMessage w = Some p ->
    pool w !! p = Some m ->
    mTransmitTaskPosted w = true ->
    HandleDtlsSend_all chunks w = (es, w') ->
    Forall (fun e => e = kThreadError_None) es ->
    mTransmitMessage w' = Some p /\
    pool w' !! p =
      Some (mkMessage (mPayload m ++ concat chunks) (mOffset m)
              (mLinkSecurityEnabled m)) /\
    mTransmitTaskPosted w' = true /\
    sentMessages (trace w') = sentMessages (trace w) /\
    mPeerAddress w' = mPeerAddress w.
Proof.
  induction chunks as [|aBuf rest IH]; intros w w' es p m Hp Hm Hpost; simpl.
  - intros [= <- <-] _. rewrite app_nil_r. destruct m; auto.
  - destruct (HandleDtlsSend aBuf w) as [e w1] eqn:H1.
    destruct (HandleDtlsSend_all rest w1) as [es1 w2] eqn:H2.
    intros [= <- <-] Hall. inversion Hall as [|? ? He Hes]; subst.
    destruct (HandleDtlsSend_next_message _ _ _ _ _ Hp Hm H1)
      as (Hp1 & Hm1 & Hpost1 & Hs1 & Ha1).
    destruct (IH _ _ _ _ _ Hp1 Hm1 Hpost1 H2 Hes) as (Hp2 & Hm2 & Hpost2 & Hs2 & Ha2).
    simpl in Hm2. rewrite <- app_assoc in Hm2.
    rewrite Hs2, Hs1, Ha2, Ha1. auto.
Qed.

(** X3: from an idle buffer, a non-empty sequence of successful
    [HandleDtlsSend] calls followed by the run of the posted transmit task
    hands to [SendTo], once, a message that holds exactly the chunks in
    order, has offset 0 and has link security disabled, addressed to the
    bound peer; afterwards the buffer is idle again: nothing pending,
    nothing posted. *)
Theorem buffered_chunks_leave_as_one_unsecured_datagram
    (chunks : list (list byte)) w es w' :
  mTransmitMessage w = None ->
  chunks <> [] ->
  HandleDtlsSend_all chunks w = (es, w') ->
  Forall (fun e => e = kThreadError_None) es ->
  sentMessages (trace (RunTransmitTask w')) =
    sentMessages (trace w) ++
    [(Some (mkMessage (concat chunks) 0 false), mPeerAddress w)] /\
  mTransmitMessage (RunTransmitTask w') = None /\
  mTransmitTaskPosted (RunTransmitTask w') = false.
Proof.
  intros Hnull Hne Hrun Hall.
  destruct chunks as [|aBuf rest]; [congruence|]. simpl in Hrun.
  destruct (HandleDtlsSend aBuf w) as [e w1] eqn:H1.
  destruct (HandleDtlsSend_all rest w1) as [es1 w2] eqn:H2.
  injection Hrun as <- <-. inversion Hall as [|? ? He Hes]; subst.
  destruct (HandleDtlsSend_first_message _ _ _ Hnull H1)
    as (p & Hp & Hm & Hpost & Hs & Ha).
  destruct (HandleDtlsSend_all_next_message _ _ _ _ _ _ Hp Hm Hpost H2 Hes)
    as (Hp' & Hm' & Hpost' & Hs' & Ha').
  unfold RunTransmitTask. rewrite Hpost'.
  rewrite (HandleUdpTransmit_pending _ p) by exact Hp'. simpl.
  rewrite trace_socket_SendTo, sentMessages_app. simpl.
  rewrite Hm', Hs', Hs, Ha', Ha. simpl.
  split; [reflexivity|]. unfold socket_SendTo. simpl.
  destruct (udp_SendTo _ _ _); auto.
Qed.

(** X4: with nothing pending and the pool exhausted, [HandleDtlsSend]
    returns [kThreadError_NoBufs] and changes nothing but the trace, which
    records the failed allocation: nothing is pending, nothing is freed, the
    flush is not posted. *)
Theorem HandleDtlsSend_allocation_failure aBuf w :
  mTransmitMessage w = None ->
  pool_New_ok (pool w) = false ->
  HandleDtlsSend aBuf w = (kThreadError_NoBufs, emit (EvNewMessage None) w).
Proof.
  intros Hnull Hfull. unfold HandleDtlsSend, pool_New. rewrite Hnull, Hfull.
  unfold HandleDtlsSend_exit. simpl. f_equal.
  destruct w; simpl in *. subst. reflexivity.
Qed.

(** ** What each call adds to the trace *)

Section Evolves.
Variable P : MessageInfo -> Event -> Prop.

Lemma evolves_same w w' :
  mPeerAddress w' = mPeerAddress w -> trace w' = trace w -> evolves P w w'.
Proof.
  intros Hp Ht. split; [exact Hp|]. exists []. rewrite app_nil_r. auto.
Qed.

Lemma evolves_refl w : evolves P w w.
Proof. apply evolves_same; reflexivity. Qed.

Lemma evolves_trans w1 w2 w3 : evolves P w1 w2 -> evolves P w2 w3 -> evolves P w1 w3.
Proof.
  intros (Hp1 & l1 & Ht1 & Hl1) (Hp2 & l2 & Ht2 & Hl2).
  split; [congruence|]. exists (l1 ++ l2).
  rewrite Ht2, Ht1, <- app_assoc. split; [reflexivity|].
  apply Forall_app. split; [exact Hl1|]. rewrite <- Hp1. exact Hl2.
Qed.

Lemma evolves_emit e w : P (mPeerAddress w) e -> evolves P w (emit e w).
Proof. intros He. split; [reflexivity|]. exists [e]. auto. Qed.

End Evolves.

Lemma evolves_weaken (P Q : MessageInfo -> Event -> Prop) w w' :
  (forall i e, P i e -> Q i e) -> evolves P w w' -> evolves Q w w'.
Proof.
  intros HPQ (Hp & l & Ht & Hl). split; [exact Hp|]. exists l. split; [exact Ht|].
  eapply Forall_impl; [exact Hl|]. intros e. apply HPQ.
Qed.

Lemma quiet_silent i e : quiet i e -> silent i e.
Proof. intros [H _]. exact H. Qed.

Lemma silent_bound i e : silent i e -> bound i e.
Proof. intros [H _]. exact H. Qed.

Lemma silent_sendTos i l : Forall (silent i) l -> sendTos l = [].
Proof.
  induction 1 as [|e l [_ He] _ IH]; [reflexivity|].
  unfold sendTos in *. simpl. rewrite He. exact IH.
Qed.

Lemma quiet_dtlsReceiveCalls i l : Forall (quiet i) l -> dtlsReceiveCalls l = [].
Proof.
  induction 1 as [|e l (_ & He & _) _ IH]; [reflexivity|].
  unfold dtlsReceiveCalls in *. simpl.
  destruct e; simpl in *; try discriminate; exact IH.
Qed.

Ltac plain_event := repeat split.

Ltac step_event :=
  first
    [ apply evolves_emit; plain_event
    | apply evolves_same; reflexivity ].

Lemma quiet_msg_Free p w : evolves quiet w (msg_Free p w).
Proof.
  unfold msg_Free. eapply evolves_trans; [|step_event]. step_event.
Qed.

Lemma quiet_msg_Append p aBuf w : evolves quiet w (snd (msg_Append p aBuf w)).
Proof.
  unfold msg_Append; simpl. destruct (isError _); [step_event|].
  eapply evolves_trans; [|step_event]. step_event.
Qed.

Lemma quiet_pool_New w : evolves quiet w (snd (pool_New w)).
Proof.
  unfold pool_New. destruct (pool_New_ok _); simpl; [|step_event].
  eapply evolves_trans; [|step_event]. step_event.
Qed.

Lemma quiet_HandleDtlsSend_exit e w : evolves quiet w (snd (HandleDtlsSend_exit e w)).
Proof.
  unfold HandleDtlsSend_exit; simpl. destruct (isError e); [|step_event].
  destruct (mTransmitMessage w); [apply quiet_msg_Free|step_event].
Qed.

Lemma quiet_HandleDtlsSend_append p aBuf w :
  evolves quiet w (snd (HandleDtlsSend_append p aBuf w)).
Proof.
  unfold HandleDtlsSend_append.
  pose proof (quiet_msg_Append p aBuf w) as H.
  destruct (msg_Append p aBuf w) as [r w1]; simpl in H.
  destruct r;
    try (eapply evolves_trans; [exact H|]; apply quiet_HandleDtlsSend_exit).
  eapply evolves_trans; [exact H|].
  eapply evolves_trans; [|apply quiet_HandleDtlsSend_exit].
  unfold task_Post. eapply evolves_trans; [|step_event]. step_event.
Qed.

Lemma quiet_HandleDtlsSend aBuf w : evolves quiet w (snd (HandleDtlsSend aBuf w)).
Proof.
  unfold HandleDtlsSend.
  destruct (mTransmitMessage w); [apply quiet_HandleDtlsSend_append|].
  pose proof (quiet_pool_New w) as H.
  destruct (pool_New w) as [r w1]; simpl in H.
  eapply evolves_trans; [exact H|].
  eapply evolves_trans; [apply (evolves_same _ w1 (set_mTransmitMessage r w1)); reflexivity|].
  destruct r; [|apply quiet_HandleDtlsSend_exit].
  eapply evolves_trans; [|apply quiet_HandleDtlsSend_append].
  unfold msg_SetLinkSecurityEnabled. eapply evolves_trans; [|step_event]. step_event.
Qed.

Lemma quiet_HandleDtlsReceive aBuf w : evolves quiet w (HandleDtlsReceive aBuf w).
Proof.
  unfold HandleDtlsReceive.
  pose proof (quiet_pool_New w) as H.
  destruct (pool_New w) as [r w1]; simpl in H.
  destruct r as [p|]; [|exact H].
  eapply evolves_trans; [exact H|].
  pose proof (quiet_msg_Append p aBuf w1) as H1.
  destruct (msg_Append p aBuf w1) as [r w2]; simpl in H1.
  eapply evolves_trans; [exact H1|].
  destruct (isError r); [apply quiet_msg_Free|].
  eapply evolves_trans; [|apply quiet_msg_Free].
  unfold ProcessReceivedMessage. eapply evolves_trans; [|step_event]. step_event.
Qed.

Lemma quiet_runDtls {R : Type} (s : DtlsScript Dtls R) :
  forall w, evolves quiet w (snd (runDtls s w)).
Proof.
  induction s as [r d|aBuf k IH|aBuf k IH]; intros w; simpl.
  - step_event.
  - pose proof (quiet_HandleDtlsSend aBuf w) as H.
    destruct (HandleDtlsSend aBuf w) as [e w1]; simpl in H.
    eapply evolves_trans; [exact H|apply IH].
  - eapply evolves_trans; [apply quiet_HandleDtlsReceive|apply IH].
Qed.

Lemma silent_runDtls {R : Type} (s : DtlsScript Dtls R) w :
  evolves silent w (snd (runDtls s w)).
Proof. apply (evolves_weaken quiet silent); [apply quiet_silent|apply quiet_runDtls]. Qed.

Lemma silent_msg_Free p w : evolves silent w (msg_Free p w).
Proof. apply (evolves_weaken quiet silent); [apply quiet_silent|apply quiet_msg_Free]. Qed.

Lemma silent_Disconnect w : evolves silent w (snd (Disconnect w)).
Proof.
  unfold Disconnect. eapply evolves_trans; [|apply silent_runDtls]. step_event.
Qed.

Lemma silent_Send a i w : evolves silent w (snd (Send a i w)).
Proof.
  unfold Send. destruct (_ <=? _); [|step_event].
  set (w1 := msg_Read_into_mBuffer _ _ _). set (b := take _ _).
  pose proof (silent_runDtls (dtls_Send b (dtls w1)) (emit (EvDtlsSend b) w1)) as H.
  destruct (runDtls _ _) as [e w2]; simpl in H.
  assert (evolves silent w w2) as Hw.
  { eapply evolves_trans; [|exact H].
    eapply evolves_trans; [|step_event].
    unfold w1, msg_Read_into_mBuffer. eapply evolves_trans; [|step_event]. step_event. }
  destruct (isError e); simpl; [exact Hw|].
  eapply evolves_trans; [exact Hw|apply silent_msg_Free].
Qed.

Lemma silent_runClient {R : Type} (s : ClientScript Base R) :
  forall w, evolves silent w (snd (runClient s w)).
Proof.
  induction s as [r b|a i k IH]; intros w; simpl.
  - step_event.
  - pose proof (silent_Send a i w) as H.
    destruct (Send a i w) as [e w1]; simpl in H.
    eapply evolves_trans; [exact H|apply IH].
Qed.

Lemma silent_SendMessage a h c w : evolves silent w (snd (SendMessage a h c w)).
Proof.
  unfold SendMessage. destruct (IsConnected w); [|step_event].
  eapply evolves_trans; [|apply silent_runClient]. step_event.
Qed.

Lemma silent_Stop w : evolves silent w (snd (Stop w)).
Proof.
  unfold Stop.
  set (w1 := if IsConnectionStarted w then _ else _).
  assert (evolves silent w w1) as H1.
  { unfold w1. destruct (IsConnectionStarted w); [apply silent_Disconnect|step_event]. }
  set (w2 := match mTransmitMessage w1 with Some _ => _ | None => _ end).
  assert (evolves silent w1 w2) as H2.
  { unfold w2. destruct (mTransmitMessage w1); [|step_event].
    eapply evolves_trans; [apply silent_msg_Free|]. step_event. }
  unfold base_Stop. destruct (client_Stop (base w2)) as [r b]; simpl.
  eapply evolves_trans; [exact H1|]. eapply evolves_trans; [exact H2|].
  eapply evolves_trans; [|step_event]. step_event.
Qed.

(** [Receive] calls the engine and possibly the callback, and does not send. *)
Lemma silent_Receive m i w : evolves silent w (Receive m i w).
Proof.
  unfold Receive. destruct (_ && _); [|apply evolves_refl].
  set (l := to_uint16 _).
  pose proof (quiet_runDtls (dtls_Receive m (mOffset m) l (dtls w))
                (emit (EvDtlsReceive m (mOffset m) l) w)) as H.
  set (w1 := snd (runDtls _ _)) in *.
  assert (evolves silent w w1) as Hw.
  { eapply evolves_trans;
      [|apply (evolves_weaken quiet silent); [apply quiet_silent|exact H]].
    apply evolves_emit. repeat split. }
  destruct (IsConnected w1); [|exact Hw].
  destruct (mConnectedCallback w1) as [cb|]; [|exact Hw].
  eapply evolves_trans; [exact Hw|].
  apply (evolves_trans _ _ (emit (EvConnectedCallback cb (mContext w1)) w1));
    [apply evolves_emit; repeat split|apply evolves_same; reflexivity].
Qed.

(** The flush is the one place that sends, and it sends to the bound peer. *)
Lemma bound_HandleUdpTransmit w : evolves bound w (HandleUdpTransmit w).
Proof.
  destruct (mTransmitMessage w) as [p|] eqn:Hp.
  - rewrite (HandleUdpTransmit_pending _ _ Hp). unfold socket_SendTo.
    destruct (udp_SendTo _ _ _); simpl.
    eapply evolves_trans; [|apply evolves_same; reflexivity].
    eapply evolves_trans; [apply (evolves_same _ w (set_udp u w)); reflexivity|].
    apply evolves_emit. reflexivity.
  - rewrite (HandleUdpTransmit_idle _ Hp). apply evolves_refl.
Qed.

Lemma bound_step o w : evolves bound w (step o w).
Proof.
  assert (forall w', evolves quiet w w' -> evolves bound w w') as Hq.
  { intros w'. apply evolves_weaken. intros i e H.
    apply silent_bound, quiet_silent, H. }
  assert (forall w', evolves silent w w' -> evolves bound w w') as Hs.
  { intros w'. apply evolves_weaken. intros i e H. apply silent_bound, H. }
  destruct o as [m i|a h c|a i| | | | |pl]; simpl.
  - apply (evolves_weaken silent bound); [apply silent_bound|apply silent_Receive].
  - apply Hs, silent_SendMessage.
  - apply Hs, silent_Send.
  - apply Hs, silent_Disconnect.
  - apply Hs, silent_Stop.
  - unfold RunTransmitTask. destruct (mTransmitTaskPosted w); [|apply evolves_refl].
    eapply evolves_trans; [|apply bound_HandleUdpTransmit].
    apply evolves_same; reflexivity.
  - apply Hq, quiet_runDtls.
  - apply evolves_same; reflexivity.
Qed.

Lemma silent_step o w :
  o <> OpRunTransmitTask -> evolves silent w (step o w).
Proof.
  intros Hne.
  assert (forall w', evolves quiet w w' -> evolves silent w w') as Hq.
  { intros w'. apply evolves_weaken. intros i e H. apply quiet_silent, H. }
  assert (forall w', evolves silent w w' -> evolves silent w w') as Hs by auto.
  destruct o as [m i|a h c|a i| | | | |pl]; simpl.
  - apply silent_Receive.
  - apply Hs, silent_SendMessage.
  - apply Hs, silent_Send.
  - apply Hs, silent_Disconnect.
  - apply Hs, silent_Stop.
  - congruence.
  - apply Hq, quiet_runDtls.
  - apply evolves_same; reflexivity.
Qed.

Lemma evolves_silent_sendTos w w' :
  evolves silent w w' -> sendTos (trace w') = sendTos (trace w).
Proof.
  intros (_ & l & Hl & Hs). rewrite Hl, sendTos_app, (silent_sendTos _ _ Hs).
  apply app_nil_r.
Qed.

Lemma silent_Connect aMessageInfo aCallback aContext w :
  evolves silent (set_mPeerAddress aMessageInfo w)
    (snd (Connect aMessageInfo aCallback aContext w)).
Proof.
  unfold Connect. eapply evolves_trans; [|apply silent_runDtls].
  eapply evolves_trans; [|step_event]. apply evolves_same; reflexivity.
Qed.

(** ** Deferred transmission *)

(** X5: no call on the object but the run of the transmit task calls
    [SendTo]: neither [Connect], [Disconnect], [Stop], [SendMessage], [Send]
    nor [Receive], whatever the engine does inside them through the send and
    receive handlers, nor the engine's timer. *)
Theorem only_the_transmit_task_sends (c : Call) w :
  c <> CallStep OpRunTransmitTask ->
  sendTos (trace (call c w)) = sendTos (trace w).
Proof.
  intros Hne. destruct c as [i cb ctx|o]; simpl.
  - apply (evolves_silent_sendTos (set_mPeerAddress i w)).
    apply silent_Connect.
  - apply evolves_silent_sendTos, silent_step. congruence.
Qed.

Lemma Stop_clears_pending w : mTransmitMessage (snd (Stop w)) = None.
Proof.
  unfold Stop, base_Stop.
  set (w1 := if IsConnectionStarted w then _ else _).
  destruct (mTransmitMessage w1) eqn:Hp; destruct (client_Stop _); simpl; auto.
Qed.

(** X6: what is buffered when [Stop] is called is never sent, and neither is
    what the engine emits while [Stop] disconnects it (its closing alert):
    [Stop] sends nothing, and the transmit task that runs after it finds
    nothing pending and sends nothing. *)
Theorem Stop_discards_buffered_output w :
  sendTos (trace (RunTransmitTask (snd (Stop w)))) = sendTos (trace w) /\
  mTransmitMessage (RunTransmitTask (snd (Stop w))) = None.
Proof.
  pose proof (Stop_clears_pending w) as Hnone.
  assert (sendTos (trace (snd (Stop w))) = sendTos (trace w)) as Hs.
  { apply evolves_silent_sendTos.
    apply silent_Stop. }
  unfold RunTransmitTask. destruct (mTransmitTaskPosted (snd (Stop w))); [|auto].
  rewrite HandleUdpTransmit_idle by exact Hnone. auto.
Qed.

(** ** Session binding *)

Lemma bound_run ops : forall w, evolves bound w (run ops w).
Proof.
  induction ops as [|o ops IH]; intros w; [apply evolves_refl|].
  rewrite run_cons. eapply evolves_trans; [apply bound_step|apply IH].
Qed.

(** X7: from [Connect] until the next [Connect], whatever is done with the
    object and whatever the engine and the base client do, the bound peer
    stays the one given to [Connect], and every datagram handed to [SendTo],
    every message handed to the base client's [SendMessage] and every
    message dispatched through [ProcessReceivedMessage] names that peer, also
    when the base client asks [Send] for another destination. *)
Theorem traffic_names_the_bound_peer (aMessageInfo : MessageInfo)
    (aCallback : option ConnectedCallback) (aContext : Context) (w0 : World)
    (ops : list Op) :
  let w1 := snd (Connect aMessageInfo aCallback aContext w0) in
  mPeerAddress (run ops w1) = aMessageInfo /\
  exists l, trace (run ops w1) = trace w0 ++ l /\ Forall (bound aMessageInfo) l.
Proof.
  intros w1.
  assert (evolves bound (set_mPeerAddress aMessageInfo w0) (run ops w1)) as H.
  { eapply evolves_trans; [|apply bound_run].
    apply (evolves_weaken silent bound); [|apply silent_Connect].
    intros i e He. apply silent_bound, He. }
  destruct H as (Hp & l & Hl & Hb). simpl in Hp, Hl, Hb.
  split; [exact Hp|]. exists l. split; assumption.
Qed.

(** X8: [Receive] hands a datagram to the engine exactly when the peer
    address and the peer port of its source equal those of the bound peer,
    the other fields of the source playing no part; it then calls the
    engine's receive operation once, on that datagram, from its offset, with
    the 16-bit difference of length and offset as length; the handlers the
    engine calls meanwhile never call the receive operation again.  For a
    datagram whose offset is within its length the difference is exact. *)
Theorem Receive_hands_datagram_to_engine (aMessage : Message)
    (aMessageInfo : MessageInfo) w :
  dtlsReceiveCalls (trace (Receive aMessage aMessageInfo w)) =
    dtlsReceiveCalls (trace w) ++
    (if from_bound_peer aMessageInfo w then
       [(aMessage, mOffset aMessage,
         to_uint16 (GetLength aMessage - mOffset aMessage))]
     else []) /\
  (0 <= mOffset aMessage <= GetLength aMessage ->
   GetLength aMessage < 65536 ->
   to_uint16 (GetLength aMessage - mOffset aMessage) =
     GetLength aMessage - mOffset aMessage).
Proof.
  split.
  - unfold Receive, from_bound_peer.
    destruct (_ && _); [|rewrite app_nil_r; reflexivity].
    set (l := to_uint16 _).
    destruct (quiet_runDtls (dtls_Receive aMessage (mOffset aMessage) l (dtls w))
                (emit (EvDtlsReceive aMessage (mOffset aMessage) l) w))
      as (_ & l' & Hl' & Hq).
    set (w1 := snd (runDtls _ _)) in *.
    assert (dtlsReceiveCalls (trace w1) =
            dtlsReceiveCalls (trace w) ++ [(aMessage, mOffset aMessage, l)]) as Hw1.
    { rewrite Hl'. simpl. rewrite !dtlsReceiveCalls_app.
      rewrite (quiet_dtlsReceiveCalls _ _ Hq), app_nil_r. reflexivity. }
    destruct (IsConnected w1); [|exact Hw1].
    destruct (mConnectedCallback w1); [|exact Hw1].
    simpl. rewrite dtlsReceiveCalls_app, Hw1. simpl. apply app_nil_r.
  - intros Hoff Hlen. unfold to_uint16. apply Z.mod_small. lia.
Qed.

(** ** The connected callback fires *)

(** X9: a datagram from the bound peer on which the engine ends connected,
    while a callback is registered: [Receive] invokes that callback, once,
    with the stored context, and leaves callback and context cleared. *)
Theorem Receive_fires_callback_on_connection (aMessage : Message)
    (aMessageInfo : MessageInfo) w (cb : ConnectedCallback) :
  from_bound_peer aMessageInfo w = true ->
  mConnectedCallback w = Some cb ->
  DtlsEnds (fun _ d => dtls_IsConnected d = true)
    (dtls_Receive aMessage (mOffset aMessage)
       (to_uint16 (GetLength aMessage - mOffset aMessage)) (dtls w)) ->
  connecteds (trace (Receive aMessage aMessageInfo w)) =
    connecteds (trace w) ++ [(cb, mContext w)] /\
  mConnectedCallback (Receive aMessage aMessageInfo w) = None /\
  mContext (Receive aMessage aMessageInfo w) = 0.
Proof.
  intros Hfrom Hcb Hends. unfold Receive. unfold from_bound_peer in Hfrom.
  rewrite Hfrom. set (l := to_uint16 _) in *.
  pose proof (runDtls_ends _ _ Hends (emit (EvDtlsReceive aMessage (mOffset aMessage) l) w))
    as Hconn.
  pose proof (frame_runDtls (dtls_Receive aMessage (mOffset aMessage) l (dtls w))
                (emit (EvDtlsReceive aMessage (mOffset aMessage) l) w)) as Hframe.
  set (w1 := snd (runDtls _ _)) in *. simpl in Hconn.
  unfold IsConnected. rewrite Hconn.
  pose proof (frame_connecteds _ _ Hframe) as Hsame.
  destruct Hframe as (Hcb1 & Hctx1 & _). simpl in Hcb1, Hctx1, Hsame.
  rewrite Hcb1, Hcb. simpl. rewrite connecteds_app, Hsame, connecteds_app, Hctx1.
  simpl. rewrite app_nil_r. auto.
Qed.

(** X10: a datagram on which the engine does not end connected (the
    handshake goes on): [Receive] invokes nothing and keeps callback and
    context registered. *)
Theorem Receive_keeps_callback_until_connected (aMessage : Message)
    (aMessageInfo : MessageInfo) w :
  DtlsEnds (fun _ d => dtls_IsConnected d = false)
    (dtls_Receive aMessage (mOffset aMessage)
       (to_uint16 (GetLength aMessage - mOffset aMessage)) (dtls w)) ->
  connecteds (trace (Receive aMessage aMessageInfo w)) = connecteds (trace w) /\
  mConnectedCallback (Receive aMessage aMessageInfo w) = mConnectedCallback w /\
  mContext (Receive aMessage aMessageInfo w) = mContext w.
Proof.
  intros Hends. unfold Receive. destruct (_ && _); [|auto].
  set (l := to_uint16 _) in *.
  pose proof (runDtls_ends _ _ Hends (emit (EvDtlsReceive aMessage (mOffset aMessage) l) w))
    as Hconn.
  pose proof (frame_runDtls (dtls_Receive aMessage (mOffset aMessage) l (dtls w))
                (emit (EvDtlsReceive aMessage (mOffset aMessage) l) w)) as Hframe.
  set (w1 := snd (runDtls _ _)) in *. simpl in Hconn.
  unfold IsConnected. rewrite Hconn.
  pose proof (frame_connecteds _ _ Hframe) as Hsame.
  destruct Hframe as (Hcb1 & Hctx1 & _). simpl in Hcb1, Hctx1, Hsame.
  rewrite Hsame, connecteds_app. simpl. rewrite app_nil_r. auto.
Qed.

(** X11: neither [Disconnect] nor [Stop] touches the registration: the
    connected callback, its context and the bound peer are afterwards what
    they were, whatever the engine does while it stops. *)
Theorem teardown_keeps_registration w :
  (mConnectedCallback (snd (Disconnect w)) = mConnectedCallback w /\
   mContext (snd (Disconnect w)) = mContext w /\
   mPeerAddress (snd (Disconnect w)) = mPeerAddress w) /\
  (mConnectedCallback (snd (Stop w)) = mConnectedCallback w /\
   mContext (snd (Stop w)) = mContext w /\
   mPeerAddress (snd (Stop w)) = mPeerAddress w).
Proof.
  destruct (frame_Disconnect w) as (H1 & H2 & H3 & _).
  destruct (frame_Stop w) as (H4 & H5 & H6 & _). auto.
Qed.

(** ** The size of [mBuffer] *)

Lemma mBuffer_HandleDtlsSend_append p aBuf w :
  mBuffer (snd (HandleDtlsSend_append p aBuf w)) = mBuffer w.
Proof.
  unfold HandleDtlsSend_append, HandleDtlsSend_exit, msg_Append.
  destruct (msg_Append_result (pool w) p aBuf); simpl;
    try (destruct (mTransmitMessage w)); reflexivity.
Qed.

Lemma mBuffer_HandleDtlsSend aBuf w : mBuffer (snd (HandleDtlsSend aBuf w)) = mBuffer w.
Proof.
  unfold HandleDtlsSend.
  destruct (mTransmitMessage w) eqn:Hp; [apply mBuffer_HandleDtlsSend_append|].
  unfold pool_New. destruct (pool_New_ok (pool w)); simpl.
  - rewrite mBuffer_HandleDtlsSend_append. reflexivity.
  - reflexivity.
Qed.

Lemma mBuffer_HandleDtlsReceive aBuf w : mBuffer (HandleDtlsReceive aBuf w) = mBuffer w.
Proof.
  unfold HandleDtlsReceive, pool_New, msg_Append.
  destruct (pool_New_ok (pool w)); simpl; [|reflexivity].
  destruct (isError _); reflexivity.
Qed.

Lemma mBuffer_runDtls {R : Type} (s : DtlsScript Dtls R) :
  forall w, mBuffer (snd (runDtls s w)) = mBuffer w.
Proof.
  induction s as [r d|aBuf k IH|aBuf k IH]; intros w; simpl.
  - reflexivity.
  - pose proof (mBuffer_HandleDtlsSend aBuf w) as H.
    destruct (HandleDtlsSend aBuf w) as [e w1]; simpl in H. rewrite IH. exact H.
  - rewrite IH. apply mBuffer_HandleDtlsReceive.
Qed.

(** The length check of [Send] keeps the copy inside [mBuffer]. *)
Lemma sized_Send a i w : mBuffer_sized w -> mBuffer_sized (snd (Send a i w)).
Proof.
  unfold mBuffer_sized. intros Hsz. unfold Send.
  destruct (msg_GetLength a w <=? kMaxMessageLength) eqn:Hle; [|exact Hsz].
  apply Z.leb_le in Hle.
  set (w1 := msg_Read_into_mBuffer _ _ _). set (b := take _ _).
  assert (length (mBuffer w1) = length (mBuffer w)) as Hw1.
  { unfold w1, msg_Read_into_mBuffer, msg_GetLength in *. simpl.
    rewrite length_app, length_drop.
    destruct (pool w !! a) as [m|]; simpl; [|lia].
    unfold GetLength in *. rewrite Nat2Z.id, firstn_all. lia. }
  pose proof (mBuffer_runDtls (dtls_Send b (dtls w1)) (emit (EvDtlsSend b) w1)) as H.
  destruct (runDtls _ _) as [e w2]. change (mBuffer w2 = mBuffer w1) in H.
  assert (mBuffer (snd (if isError e then (e, w2) else (e, msg_Free a w2))) = mBuffer w2)
    as -> by (destruct (isError e); reflexivity).
  rewrite H, Hw1. exact Hsz.
Qed.

Lemma sized_runClient {R : Type} (s : ClientScript Base R) :
  forall w, mBuffer_sized w -> mBuffer_sized (snd (runClient s w)).
Proof.
  induction s as [r b|a i k IH]; intros w Hsz; simpl.
  - exact Hsz.
  - pose proof (sized_Send a i w Hsz) as H.
    destruct (Send a i w) as [e w1]; simpl in H. apply IH, H.
Qed.

Lemma mBuffer_HandleUdpTransmit w : mBuffer (HandleUdpTransmit w) = mBuffer w.
Proof.
  destruct (mTransmitMessage w) as [p|] eqn:Hp.
  - rewrite (HandleUdpTransmit_pending _ _ Hp). unfold socket_SendTo.
    destruct (udp_SendTo _ _ _); reflexivity.
  - rewrite (HandleUdpTransmit_idle _ Hp). reflexivity.
Qed.

Lemma mBuffer_Stop w : mBuffer (snd (Stop w)) = mBuffer w.
Proof.
  unfold Stop, base_Stop, Disconnect.
  set (w1 := if IsConnectionStarted w then _ else _).
  assert (mBuffer w1 = mBuffer w) as H1.
  { unfold w1. destruct (IsConnectionStarted w); [|reflexivity].
    rewrite mBuffer_runDtls. reflexivity. }
  destruct (mTransmitMessage w1); destruct (client_Stop _); simpl; exact H1.
Qed.

Lemma sized_call c w : mBuffer_sized w -> mBuffer_sized (call c w).
Proof.
  unfold mBuffer_sized at 2. intros Hsz.
  destruct c as [i cb ctx|[m i|a h x|a i| | | | |pl]]; simpl.
  - unfold Connect. rewrite mBuffer_runDtls. exact Hsz.
  - unfold Receive. destruct (_ && _); [|exact Hsz].
    set (w1 := snd (runDtls _ _)).
    assert (mBuffer w1 = mBuffer w) as H1 by (unfold w1; rewrite mBuffer_runDtls; reflexivity).
    destruct (IsConnected w1); [destruct (mConnectedCallback w1)|]; simpl;
      rewrite H1; exact Hsz.
  - unfold SendMessage. destruct (IsConnected w); [|exact Hsz].
    apply sized_runClient. exact Hsz.
  - apply sized_Send. exact Hsz.
  - unfold Disconnect. rewrite mBuffer_runDtls. exact Hsz.
  - rewrite mBuffer_Stop. exact Hsz.
  - unfold RunTransmitTask. destruct (mTransmitTaskPosted w); [|exact Hsz].
    rewrite mBuffer_HandleUdpTransmit. exact Hsz.
  - unfold DtlsTimerFired. rewrite mBuffer_runDtls. exact Hsz.
  - exact Hsz.
Qed.

(** X12: [mBuffer] keeps its declared size for the whole life of the
    object: from the constructor on, over any sequence of calls, the copy
    that [Send] makes never goes past the end of the buffer, because [Send]
    refuses every message longer than [kMaxMessageLength]. *)
Theorem mBuffer_keeps_its_size (calls : list Call) (aPeer : MessageInfo)
    (pl : gmap nat Message) (d : Dtls) (b : Base) (u : Udp) :
  0 <= kMaxMessageLength ->
  mBuffer_sized (lifetime calls (SecureClient_new aPeer pl d b u)).
Proof.
  intros Hpos.
  assert (mBuffer_sized (SecureClient_new aPeer pl d b u)) as H0.
  { unfold mBuffer_sized, SecureClient_new. simpl. rewrite length_replicate. lia. }
  revert H0. generalize (SecureClient_new aPeer pl d b u).
  unfold lifetime. induction calls as [|c calls IH]; intros w Hsz; [exact Hsz|].
  simpl. apply IH, sized_call, Hsz.
Qed.

(** ** Messages of others *)

Lemma untouched_same a w w' :
  pool w' = pool w -> mTransmitMessage w' <> Some a -> trace w' = trace w ->
  untouched a w w'.
Proof.
  intros Hp Hm Ht. split; [rewrite Hp; reflexivity|]. split; [exact Hm|].
  exists []. rewrite app_nil_r. split; [exact Ht|apply not_elem_of_nil].
Qed.

Lemma untouched_emit a e w :
  mTransmitMessage w <> Some a -> free_of e <> Some a -> untouched a w (emit e w).
Proof.
  intros Hm He. split; [reflexivity|]. split; [exact Hm|].
  exists [e]. split; [reflexivity|]. unfold frees. simpl.
  destruct (free_of e) as [q|]; [|apply not_elem_of_nil].
  apply not_elem_of_cons. split; [congruence|apply not_elem_of_nil].
Qed.

Lemma untouched_live a w w' :
  untouched a w w' -> is_Some (pool w !! a) ->
  is_Some (pool w' !! a) /\ mTransmitMessage w' <> Some a.
Proof. intros (Hp & Hm & _) Hlive. rewrite Hp. auto. Qed.

Lemma untouched_Disconnect a w :
  is_Some (pool w !! a) -> mTransmitMessage w <> Some a ->
  untouched a w (snd (Disconnect w)).
Proof.
  intros Hlive Hnp. unfold Disconnect.
  eapply untouched_trans; [apply (untouched_emit a EvDtlsStop); [exact Hnp|discriminate]|].
  apply untouched_runDtls; assumption.
Qed.

Lemma untouched_HandleUdpTransmit a w :
  mTransmitMessage w <> Some a -> untouched a w (HandleUdpTransmit w).
Proof.
  intros Hnp. destruct (mTransmitMessage w) as [p|] eqn:Hp.
  - rewrite (HandleUdpTransmit_pending _ _ Hp). unfold socket_SendTo.
    destruct (udp_SendTo _ _ _) as [r u]; simpl.
    split; [reflexivity|]. split; [discriminate|].
    eexists. split; [reflexivity|]. apply not_elem_of_nil.
  - rewrite (HandleUdpTransmit_idle _ Hp). apply untouched_refl. congruence.
Qed.

Lemma untouched_Stop a w :
  is_Some (pool w !! a) -> mTransmitMessage w <> Some a ->
  untouched a w (snd (Stop w)).
Proof.
  intros Hlive Hnp. unfold Stop.
  set (w1 := if IsConnectionStarted w then _ else _).
  assert (untouched a w w1) as H1.
  { unfold w1. destruct (IsConnectionStarted w);
      [apply untouched_Disconnect; assumption|apply untouched_refl, Hnp]. }
  destruct (untouched_live _ _ _ H1 Hlive) as [Hlive1 Hnp1].
  eapply untouched_trans; [exact H1|].
  unfold base_Stop.
  destruct (mTransmitMessage w1) as [p|] eqn:Hp; destruct (client_Stop _) as [r b]; simpl.
  - assert (p <> a) as Hne by congruence.
    split; [simpl; rewrite lookup_delete_ne by exact Hne; reflexivity|].
    split; [discriminate|].
    exists [EvFree p; EvClientStop]. split; [simpl; rewrite <- app_assoc; reflexivity|].
    simpl. apply not_elem_of_cons. split; [congruence|apply not_elem_of_nil].
  - split; [reflexivity|]. split; [simpl; congruence|].
    exists [EvClientStop]. split; [reflexivity|apply not_elem_of_nil].
Qed.

Lemma untouched_Receive a m i w :
  is_Some (pool w !! a) -> mTransmitMessage w <> Some a ->
  untouched a w (Receive m i w).
Proof.
  intros Hlive Hnp. unfold Receive.
  destruct (_ && _); [|apply untouched_refl, Hnp].
  set (l := to_uint16 _).
  assert (untouched a w (emit (EvDtlsReceive m (mOffset m) l) w)) as H0
    by (apply untouched_emit; [exact Hnp|discriminate]).
  pose proof (untouched_runDtls a (dtls_Receive m (mOffset m) l (dtls w))
                (emit (EvDtlsReceive m (mOffset m) l) w) Hlive Hnp) as H1.
  set (w1 := snd (runDtls _ _)) in *.
  pose proof (untouched_trans _ _ _ _ H0 H1) as Hw.
  destruct (IsConnected w1); [|exact Hw].
  destruct (mConnectedCallback w1) as [cb|]; [|exact Hw].
  eapply untouched_trans; [exact Hw|].
  destruct Hw as (_ & Hnp1 & _).
  apply (untouched_trans _ _ (emit (EvConnectedCallback cb (mContext w1)) w1));
    [apply untouched_emit; [exact Hnp1|discriminate]|].
  apply untouched_same; [reflexivity|exact Hnp1|reflexivity].
Qed.

(** X13: a message that is in the pool and is not the pending message is
    not the object's to touch, and the object does not touch it: over
    [Connect], [Receive], [Disconnect], [Stop], the run of the transmit task
    and the engine's timer, whatever the engine does through the handlers,
    the message stays in the pool with the same content, no call frees it,
    and it does not become the pending message. *)
Theorem messages_of_others_are_left_alone (a : MsgPtr) (c : Call) w :
  own_messages_only c = true ->
  is_Some (pool w !! a) ->
  mTransmitMessage w <> Some a ->
  pool (call c w) !! a = pool w !! a /\
  mTransmitMessage (call c w) <> Some a /\
  exists l, trace (call c w) = trace w ++ l /\ a ∉ frees l.
Proof.
  intros Hown Hlive Hnp. change (untouched a w (call c w)).
  destruct c as [i cb ctx|[m i|x h y|x i| | | | |pl]]; simpl in *; try discriminate.
  - unfold Connect.
    set (w3 := set_mContext ctx (set_mConnectedCallback cb (set_mPeerAddress i w))).
    apply (untouched_trans _ _ (emit EvDtlsStart w3));
      [|apply untouched_runDtls; [exact Hlive|exact Hnp]].
    apply (untouched_trans _ _ w3);
      [apply untouched_same; [reflexivity|exact Hnp|reflexivity]|].
    apply untouched_emit; [exact Hnp|discriminate].
  - apply untouched_Receive; assumption.
  - apply untouched_Disconnect; assumption.
  - apply untouched_Stop; assumption.
  - unfold RunTransmitTask. destruct (mTransmitTaskPosted w); [|apply untouched_refl, Hnp].
    eapply untouched_trans; [|apply untouched_HandleUdpTransmit; exact Hnp].
    apply untouched_same; [reflexivity|exact Hnp|reflexivity].
  - unfold DtlsTimerFired. apply untouched_runDtls; assumption.
Qed.

(** ** What [Send] hands to the engine *)

Lemma engineCalls_app (t1 t2 : list Event) :
  engineCalls (t1 ++ t2) = engineCalls t1 ++ engineCalls t2.
Proof. apply omap_app. Qed.

Lemma quiet_engineCalls i l : Forall (quiet i) l -> engineCalls l = [].
Proof.
  induction 1 as [|e l (_ & He & _) _ IH]; [reflexivity|].
  unfold engineCalls in *. simpl. rewrite He. exact IH.
Qed.

(** X15: for a message of the pool within the capacity, [Send] copies its
    bytes to the front of [mBuffer], leaving the rest of the buffer as it
    was, and calls the engine's send operation exactly once, on exactly the
    bytes of the message. *)
Theorem Send_hands_engine_the_message_bytes (a : MsgPtr) (i : MessageInfo)
    (m : Message) w :
  pool w !! a = Some m ->
  GetLength m <= kMaxMessageLength ->
  engineCalls (trace (snd (Send a i w))) =
    engineCalls (trace w) ++ [EvDtlsSend (mPayload m)] /\
  mBuffer (snd (Send a i w)) =
    mPayload m ++ drop (length (mPayload m)) (mBuffer w).
Proof.
  intros Hm Hle. rewrite (Send_within_capacity _ _ _ _ Hm Hle).
  set (w1 := emit (EvDtlsSend (mPayload m)) (msg_Read_into_mBuffer a (GetLength m) w)).
  destruct (quiet_runDtls (dtls_Send (mPayload m) (dtls w)) w1) as (_ & l & Hl & Hq).
  pose proof (mBuffer_runDtls (dtls_Send (mPayload m) (dtls w)) w1) as Hb.
  destruct (runDtls _ _) as [e w2]; simpl in Hl, Hb.
  assert (engineCalls (trace w2) = engineCalls (trace w) ++ [EvDtlsSend (mPayload m)]) as Ht.
  { rewrite Hl. rewrite !engineCalls_app, (quiet_engineCalls _ _ Hq). simpl.
    rewrite !app_nil_r. reflexivity. }
  assert (mBuffer w2 = mPayload m ++ drop (length (mPayload m)) (mBuffer w)) as Hb'.
  { rewrite Hb. unfold GetLength. rewrite Hm, Nat2Z.id, firstn_all. reflexivity. }
  destruct (isError e); simpl; [auto|].
  rewrite engineCalls_app, Ht. simpl. rewrite app_nil_r. auto.
Qed.

End FurtherProperties.

(** * The properties on the concrete configuration *)

Section OnScenario.
Import Scenario.

Lemma Scenario_lifecycle : DtlsLifecycle (C := collaborators).
Proof.
  split; [|split; [|split; [|split]]].
  - intros []; simpl; auto.
  - intros []; simpl; auto; discriminate.
  - intros m o l []; simpl; auto; discriminate.
  - intros b []; simpl; auto; discriminate.
  - intros []; simpl; auto; discriminate.
Qed.

(** Three chunks, then the flush: one datagram to the peer holding
    [chunk1 ++ chunk2 ++ chunk3]. *)
Lemma flush_sends_concatenation_witness :
  sendTos (trace (HandleUdpTransmit (C := collaborators)
                    (snd (HandleDtlsSend_all [chunk1; chunk2; chunk3] w_connected)))) =
    [(Some (chunk1 ++ chunk2 ++ chunk3), peerA)].
Proof.
  apply (flush_sends_concatenation (C := collaborators) [chunk1; chunk2; chunk3]
           w_connected
           (fst (HandleDtlsSend_all [chunk1; chunk2; chunk3] w_connected))).
  - reflexivity.
  - discriminate.
  - apply surjective_pairing.
  - vm_compute. repeat constructor.
Defined.

(** C2, on the code: a chunk is buffered, then a second chunk does not fit.
    [HandleDtlsSend] returns [kThreadError_NoBufs] and frees the pending
    message, and [mTransmitMessage] still points to the freed message; the
    flush posted by the first call then hands the freed message to [SendTo]. *)
Theorem HandleDtlsSend_append_failure_keeps_reference :
  let w1 := snd (HandleDtlsSend (C := collaborators) chunk1 w0) in
  let r := HandleDtlsSend (C := collaborators) chunk_big w1 in
  fst r = kThreadError_NoBufs /\
  frees (trace (snd r)) = [0%nat] /\
  pool (snd r) !! 0%nat = None /\
  mTransmitMessage (snd r) = Some 0%nat /\
  mTransmitTaskPosted (snd r) = true /\
  sendTos (trace (RunTransmitTask (snd r))) = [(None, mPeerAddress w0)].
Proof. vm_compute. repeat split. Qed.

Lemma connected_callback_one_shot_witness :
  let w1 := snd (Connect (C := collaborators) peerA (Some 7%nat) 42 w0) in
  DtlsLifecycle (C := collaborators) /\
  connecteds (trace (run session w1)) = [(7%nat, 42)] /\
  connecteds (trace (run session w1)) = connecteds (trace (run (take 4 session) w1)).
Proof.
  intros w1.
  destruct (connected_callback_one_shot (C := collaborators) peerA (Some 7%nat) 42 w0
              session) as (_ & _ & _ & Hafter); [vm_compute; reflexivity|].
  split; [exact Scenario_lifecycle|]. split; [vm_compute; reflexivity|].
  exact (Hafter Scenario_lifecycle (take 4 session) (drop 5 session) eq_refl).
Defined.

Lemma Receive_from_other_endpoint_witness :
  Receive (C := collaborators) (datagram [x16]) peerB w_connecting = w_connecting /\
  Receive (C := collaborators) (datagram [x16]) peerA' w_connecting = w_connecting.
Proof.
  split.
  - apply (Receive_from_other_endpoint (C := collaborators) (datagram [x16]) peerB
             w_connecting). left. discriminate.
  - apply (Receive_from_other_endpoint (C := collaborators) (datagram [x16]) peerA'
             w_connecting). right. discriminate.
Defined.

Lemma Send_frees_on_success_only_witness :
  fst (Send (C := collaborators) 0%nat peerA w_outgoing) = kThreadError_None /\
  pool (snd (Send (C := collaborators) 0%nat peerA w_outgoing)) !! 0%nat = None.
Proof.
  destruct (Send_frees_on_success_only (C := collaborators) 0%nat peerA
              (datagram chunk1) w_outgoing) as (_ & _ & _ & Hok).
  - reflexivity.
  - discriminate.
  - split; [reflexivity|]. apply Hok. reflexivity.
Defined.

Lemma SendMessage_not_connected_witness :
  SendMessage (C := collaborators) 0%nat 1%nat 0 w_connecting =
    (kThreadError_InvalidState, w_connecting).
Proof.
  apply (SendMessage_not_connected (C := collaborators) 0%nat 1%nat 0 w_connecting).
  reflexivity.
Defined.

Lemma flush_clears_reference_witness :
  HandleUdpTransmit (C := collaborators) w0 = w0.
Proof.
  apply (flush_clears_reference (C := collaborators) w0). reflexivity.
Defined.

Lemma flush_never_frees_witness :
  let w := snd (HandleDtlsSend (C := collaborators) chunk1 w_connected) in
  trace (HandleUdpTransmit w) =
    trace w ++ [EvSendTo 0%nat (Some (mkMessage chunk1 0 false)) peerA kThreadError_None].
Proof.
  intros w.
  destruct (flush_never_frees (C := collaborators) w) as (_ & _ & H).
  destruct (H 0%nat eq_refl) as [_ Ht]. exact Ht.
Defined.

Lemma Stop_sequence_witness :
  let w := snd (HandleDtlsSend (C := collaborators) chunk1 w_connecting) in
  exists l, trace (snd (Disconnect w)) = trace w ++ EvDtlsStop :: l.
Proof.
  intros w.
  destruct (Stop_sequence (C := collaborators) w) as (H & _).
  apply H. reflexivity.
Defined.

Lemma Connect_stores_arguments_witness :
  let r := Connect (C := collaborators) peerB (Some 8%nat) 43 w_connecting in
  fst r = kThreadError_Already /\
  mPeerAddress (snd r) = peerB /\
  mConnectedCallback (snd r) = Some 8%nat /\
  mContext (snd r) = 43.
Proof.
  intros r. split; [reflexivity|].
  destruct (Connect_stores_arguments (C := collaborators) peerB (Some 8%nat) 43
              w_connecting) as [_ H].
  exact (H (fst r) (snd r) (surjective_pairing r)).
Defined.

(** ** The further properties on the concrete configuration *)

Lemma buffered_chunks_leave_as_one_unsecured_datagram_witness :
  let w' := snd (HandleDtlsSend_all (C := collaborators) [chunk1; chunk2; chunk3]
                   w_connected) in
  sentMessages (trace (RunTransmitTask w')) =
    [(Some (mkMessage (chunk1 ++ chunk2 ++ chunk3) 0 false), peerA)] /\
  mTransmitMessage (RunTransmitTask w') = None /\
  mTransmitTaskPosted (RunTransmitTask w') = false.
Proof.
  apply (buffered_chunks_leave_as_one_unsecured_datagram (C := collaborators)
           [chunk1; chunk2; chunk3] w_connected
           (fst (HandleDtlsSend_all [chunk1; chunk2; chunk3] w_connected))).
  - reflexivity.
  - discriminate.
  - apply surjective_pairing.
  - vm_compute. repeat constructor.
Defined.

Lemma HandleDtlsSend_allocation_failure_witness :
  HandleDtlsSend (C := collaborators) chunk1 w_exhausted =
    (kThreadError_NoBufs, emit (EvNewMessage None) w_exhausted).
Proof.
  apply (HandleDtlsSend_allocation_failure (C := collaborators) chunk1 w_exhausted).
  - reflexivity.
  - vm_compute. reflexivity.
Defined.

Lemma HandleDtlsSend_failure_witness :
  let w1 := snd (HandleDtlsSend (C := collaborators) chunk1 w0) in
  fst (HandleDtlsSend chunk_big w1) = kThreadError_NoBufs.
Proof.
  intros w1.
  destruct (HandleDtlsSend_failure (C := collaborators) chunk_big w1
              (fst (HandleDtlsSend chunk_big w1)) (snd (HandleDtlsSend chunk_big w1)))
    as [He _].
  - apply surjective_pairing.
  - vm_compute. discriminate.
  - exact He.
Defined.

Lemma only_the_transmit_task_sends_witness :
  sendTos (trace (call (C := collaborators) (CallStep (OpSend 0%nat peerB)) w_outgoing)) =
    sendTos (trace w_outgoing).
Proof.
  apply (only_the_transmit_task_sends (C := collaborators)
           (CallStep (OpSend 0%nat peerB)) w_outgoing).
  discriminate.
Defined.

Lemma Receive_hands_datagram_to_engine_witness :
  to_uint16 (GetLength (mkMessage chunk_big 1 true) - 1) = 2.
Proof.
  destruct (Receive_hands_datagram_to_engine (C := collaborators)
              (mkMessage chunk_big 1 true) peerA w_connecting) as [_ H].
  apply H; vm_compute; repeat split; discriminate.
Defined.

Lemma Receive_fires_callback_on_connection_witness :
  connecteds (trace (Receive (C := collaborators) (datagram [x16]) peerA w_connecting)) =
    [(7%nat, 42)] /\
  mConnectedCallback (Receive (C := collaborators) (datagram [x16]) peerA w_connecting) =
    None /\
  mContext (Receive (C := collaborators) (datagram [x16]) peerA w_connecting) = 0.
Proof.
  apply (Receive_fires_callback_on_connection (C := collaborators) (datagram [x16])
           peerA w_connecting 7%nat); reflexivity.
Defined.

Lemma Receive_keeps_callback_until_connected_witness :
  let w := set_mConnectedCallback (C := collaborators) (Some 7%nat) w0 in
  connecteds (trace (Receive (datagram [x16]) (mPeerAddress w0) w)) = [] /\
  mConnectedCallback (Receive (datagram [x16]) (mPeerAddress w0) w) = Some 7%nat /\
  mContext (Receive (datagram [x16]) (mPeerAddress w0) w) = 0.
Proof.
  intros w.
  apply (Receive_keeps_callback_until_connected (C := collaborators) (datagram [x16])
           (mPeerAddress w0) w).
  reflexivity.
Defined.

Lemma mBuffer_keeps_its_size_witness :
  mBuffer_sized
    (lifetime life
       (SecureClient_new (C := collaborators) (mkMessageInfo 0 0 0 0 0)
          {[ 0%nat := datagram chunk1 ]} Idle tt tt)).
Proof.
  apply (mBuffer_keeps_its_size (C := collaborators) life). vm_compute. discriminate.
Defined.

Lemma messages_of_others_are_left_alone_witness :
  pool (call (C := collaborators) (CallStep OpStop) w_outgoing) !! 0%nat =
    pool w_outgoing !! 0%nat.
Proof.
  destruct (messages_of_others_are_left_alone (C := collaborators) 0%nat
              (CallStep OpStop) w_outgoing) as [H _].
  - reflexivity.
  - vm_compute. eauto.
  - discriminate.
  - exact H.
Defined.

Lemma Send_hands_engine_the_message_bytes_witness :
  engineCalls (trace (snd (Send (C := collaborators) 0%nat peerB w_outgoing))) =
    [EvDtlsSend chunk1] /\
  mBuffer (snd (Send (C := collaborators) 0%nat peerB w_outgoing)) = chunk1 ++ [x00].
Proof.
  apply (Send_hands_engine_the_message_bytes (C := collaborators) 0%nat peerB
           (datagram chunk1) w_outgoing).
  - reflexivity.
  - vm_compute. discriminate.
Defined.

Lemma HandleDtlsReceive_failure_paths_witness :
  HandleDtlsReceive (C := collaborators) chunk1 w_exhausted =
    emit (EvNewMessage None) w_exhausted.
Proof.
  destruct (HandleDtlsReceive_failure_paths (C := collaborators) chunk1 w_exhausted)
    as [H _].
  apply H. vm_compute. reflexivity.
Defined.

(** C5, on the code: [w_stale] is reached from the constructor by calls on
    the object; a caller's message lives at address 0, which
    [mTransmitMessage] still holds since the failed append that freed the
    pending message.  [Send] on that message is within the capacity, the
    engine's send operation calls [HandleDtlsSend], whose append to the
    caller's message fails and whose exit block frees it: [Send] returns
    [kThreadError_NoBufs] and the caller's message is gone from the pool. *)
Theorem Send_failure_frees_the_callers_message :
  pool w_stale !! 0%nat = Some (datagram chunk1) /\
  GetLength (datagram chunk1) <= kMaxMessageLength (Collaborators := collaborators) /\
  mTransmitMessage w_stale = Some 0%nat /\
  frees (trace w_stale) = [0%nat] /\
  fst (Send 0%nat peerA w_stale) = kThreadError_NoBufs /\
  pool (snd (Send 0%nat peerA w_stale)) !! 0%nat = None /\
  frees (trace (snd (Send 0%nat peerA w_stale))) = [0%nat; 0%nat].
Proof. vm_compute. repeat split; discriminate. Qed.

End OnScenario.
